(** * questdb_connect: schema-qualifier rewriting and capability lists

    A shallow embedding of [src/questdb_connect/__init__.py]: the DBAPI
    shim that strips the [public] schema qualifier from every statement
    and fills two module-level lists with the server's function names and
    keywords at connect time.

    Layout: [Py] holds the fragment of Python the module relies on (values,
    truth testing, exceptions), [Re] the fragment of the [re] engine that
    the compiled pattern exercises, [Questdb] the module itself.
    [Qualifier] and [Population] restate, in direct terms, what the pattern
    matches and what a connection answers; the sections after them relate
    the code to these readings and state its properties. *)

From Stdlib Require Import NArith ZArith Ascii String Lia.
From stdpp Require Import gmap strings list.

Local Open Scope N_scope.

(* ================================================================== *)
(** ** Python values, truth and exceptions                             *)
(* ================================================================== *)

Module Py.

(** A Python [str] is a sequence of Unicode code points, here [list N].
    [lit] reads a source literal (all literals of the module are ASCII). *)
Definition ord (a : ascii) : N := N_of_ascii a.
Definition lit (s : string) : list N := map ord (list_ascii_of_string s).

(** Exceptions, as far as the module tells them apart: its single
    [except] clause names [psycopg2.DatabaseError]. *)
Inductive exn : Type :=
| TypeError
| IndexError
| DatabaseError (cls : string)   (* psycopg2.DatabaseError or a subclass of it *)
| InterfaceError                 (* psycopg2.Error outside DatabaseError *)
| OtherException (name : string).

Definition isinstance_DatabaseError (e : exn) : bool :=
  match e with DatabaseError _ => true | _ => false end.

Inductive outcome (A : Type) : Type :=
| Ok (a : A)
| Raise (e : exn).
Arguments Ok {A} a.
Arguments Raise {A} e.

Definition obind {A B} (x : outcome A) (f : A -> outcome B) : outcome B :=
  match x with Ok a => f a | Raise e => Raise e end.

(** The values that reach the module.  [PyObject] is any other object
    (a composed [psycopg2.sql] query, a SQLAlchemy clause), carrying what
    its truth test does: the answer of its [__bool__] or [__len__], or
    the exception that raises. *)
Inductive obj : Type :=
| PyNone
| PyBool (b : bool)
| PyInt (z : Z)
| PyStr (s : list N)
| PyBytes (b : list N)
| PyObject (name : string) (truth : outcome bool).

(** [bool(x)], as [if x], [x and ...] and [x or ...] evaluate it. *)
Definition truth (x : obj) : outcome bool :=
  match x with
  | PyNone => Ok false
  | PyBool b => Ok b
  | PyInt z => Ok (negb (z =? 0)%Z)
  | PyStr s => Ok (match s with [] => false | _ => true end)
  | PyBytes b => Ok (match b with [] => false | _ => true end)
  | PyObject _ t => t
  end.

(** [x or y] *)
Definition or_ (x y : obj) : outcome obj :=
  obind (truth x) (fun t => Ok (if t then x else y)).

(** [isinstance(x, str)] *)
Definition isinstance_str (x : obj) : bool :=
  match x with PyStr _ => true | _ => false end.

Fixpoint startswith (p s : list N) : bool :=
  match p, s with
  | [], _ => true
  | a :: p', b :: s' => (a =? b) && startswith p' s'
  | _ :: _, [] => false
  end.

(** Substring test on [str]. *)
Fixpoint str_contains (p s : list N) : bool :=
  startswith p s ||
  match s with
  | [] => false
  | _ :: s' => str_contains p s'
  end.

(** [p in x] for a [str] literal [p]: defined on [str] only; [bytes],
    numbers, [None] and plain objects raise [TypeError]. *)
Definition contains (p : list N) (x : obj) : outcome bool :=
  match x with
  | PyStr s => Ok (str_contains p s)
  | _ => Raise TypeError
  end.

End Py.
Import Py.

Notation "'let*' x := c1 'in' c2" := (obind c1 (fun x => c2))
  (at level 10, x name, c1 at level 100, c2 at level 200, only parsing).

(* ================================================================== *)
(** ** The fragment of [re] used by the compiled pattern               *)
(* ================================================================== *)

Module Re.

Record flags : Type := { IGNORECASE : bool; MULTILINE : bool }.

(** Pattern syntax: literals, concatenation, [r?], capturing groups,
    back-references and the conditional [(?(n)yes|no)].  The pattern of
    the module has no anchors, so [MULTILINE] selects nothing. *)
Inductive regex : Type :=
| Eps
| Lit (c : N)
| Seq (r1 r2 : regex)
| Opt (r : regex)
| Group (n : nat) (r : regex)
| Backref (n : nat)
| IfGroup (n : nat) (yes no : regex).

Fixpoint lits (w : list N) : regex :=
  match w with
  | [] => Eps
  | c :: w' => Seq (Lit c) (lits w')
  end.

Record compiled : Type := { pattern : regex; re_flags : flags }.
Definition compile (r : regex) (f : flags) : compiled :=
  {| pattern := r; re_flags := f |}.

(** The engine's simple lower-case mapping.  It is exact on every code
    point whose image is ASCII (the capitals, U+0130 and the Kelvin sign
    U+212A); other cased code points are left where they are, which
    changes no comparison against an ASCII literal. *)
Definition unicode_tolower (c : N) : N :=
  if (65 <=? c) && (c <=? 90) then c + 32
  else if c =? 0x130 then 0x69
  else if c =? 0x212A then 0x6B
  else c.

(** Lower-case letters with a further case-insensitive equivalent
    (the ASCII keys of the engine's table): i ~ dotless i, s ~ long s. *)
Definition ignorecase_fixes (lo : N) : list N :=
  if lo =? 0x69 then [0x131]
  else if lo =? 0x73 then [0x17F]
  else [].

(** Does pattern literal [c] accept the input code point [x]? *)
Definition lit_eq (f : flags) (c x : N) : bool :=
  if IGNORECASE f then
    let lo := unicode_tolower c in
    existsb (N.eqb (unicode_tolower x)) (lo :: ignorecase_fixes lo)
  else c =? x.

(** Does the input code point [x] repeat the captured code point [c]? *)
Definition ref_eq (f : flags) (c x : N) : bool :=
  if IGNORECASE f then unicode_tolower c =? unicode_tolower x else c =? x.

Fixpoint ref_match (f : flags) (w s : list N) : option (list N) :=
  match w, s with
  | [], _ => Some s
  | c :: w', x :: s' => if ref_eq f c x then ref_match f w' s' else None
  | _ :: _, [] => None
  end.

Definition groups : Type := nat -> option (list N).
Definition no_groups : groups := fun _ => None.
Definition set_group (n : nat) (w : list N) (g : groups) : groups :=
  fun m => if Nat.eqb m n then Some w else g m.

(** Backtracking matcher in continuation-passing style: [k] receives the
    rest of the input and the groups captured so far; the first
    alternative that lets [k] succeed wins ([r?] is greedy). *)
Fixpoint run (f : flags) (r : regex) (s : list N) (g : groups)
    (k : list N -> groups -> option (list N)) : option (list N) :=
  match r with
  | Eps => k s g
  | Lit c =>
      match s with
      | x :: s' => if lit_eq f c x then k s' g else None
      | [] => None
      end
  | Seq r1 r2 => run f r1 s g (fun s' g' => run f r2 s' g' k)
  | Opt r1 =>
      match run f r1 s g k with
      | Some rest => Some rest
      | None => k s g
      end
  | Group n r1 =>
      run f r1 s g
        (fun s' g' => k s' (set_group n (take (length s - length s') s) g'))
  | Backref n =>
      match g n with
      | Some w =>
          match ref_match f w s with
          | Some s' => k s' g
          | None => None
          end
      | None => None
      end
  | IfGroup n yes no =>
      match g n with
      | Some _ => run f yes s g k
      | None => run f no s g k
      end
  end.

(** A match anchored at the head of [s]: the input left after it. *)
Definition match_at (p : compiled) (s : list N) : option (list N) :=
  run (re_flags p) (pattern p) s no_groups (fun rest _ => Some rest).

(** [re.sub(p, repl, s)] for a literal replacement: scan from the left,
    replace each match, resume after it.  [skip] counts the code points
    of the current match that are still to be passed over. *)
Fixpoint sub_from (p : compiled) (repl : list N) (skip : nat) (s : list N)
    {struct s} : list N :=
  match skip, s with
  | S n, _ :: t => sub_from p repl n t
  | S _, [] => []
  | O, [] =>
      match match_at p [] with
      | Some _ => repl
      | None => []
      end
  | O, c :: t =>
      match match_at p (c :: t) with
      | Some rest =>
          match (length (c :: t) - length rest)%nat with
          | O => repl ++ c :: sub_from p repl 0 t
          | S n => repl ++ sub_from p repl n t
          end
      | None => c :: sub_from p repl 0 t
      end
  end.

Definition sub (p : compiled) (repl s : list N) : list N :=
  sub_from p repl 0 s.

End Re.

(* ================================================================== *)
(** ** The module                                                      *)
(* ================================================================== *)

Module Questdb.
Import Re.

(** [re.compile(r"(')?(public(?(1)\1|)\.)", re.IGNORECASE | re.MULTILINE)] *)
Definition public_schema_filter : compiled :=
  compile
    (Seq (Opt (Group 1 (Lit (ord "'"))))
         (Group 2
            (Seq (lits (lit "public"))
                 (Seq (IfGroup 1 (Backref 1) Eps)
                      (Lit (ord "."))))))
    {| IGNORECASE := true; MULTILINE := true |}.

(** [re.sub(pattern, "", query)]: a [str] pattern accepts a [str] only. *)
Definition re_sub (p : compiled) (repl : list N) (x : obj) : outcome obj :=
  match x with
  | PyStr s => Ok (PyStr (sub p repl s))
  | _ => Raise TypeError
  end.

(** [[
    def remove_public_schema(query):
        if query and isinstance(query, str) and "public" in query:
            return re.sub(public_schema_filter, "", query)
        return query
    ]] *)
Definition remove_public_schema (query : obj) : outcome obj :=
  let* nonempty := truth query in
  if nonempty then
    if isinstance_str query then
      let* found := contains (lit "public") query in
      if found then re_sub public_schema_filter [] query
      else Ok query
    else Ok query
  else Ok query.

(** *** Module state, the driver and the effects of a call *)

(** What the module asks of the client library, in order of asking. *)
Inductive event : Type :=
| EvConnect (kw : gmap string obj)   (* psycopg2.connect( **kw ) *)
| EvCursor                           (* conn.cursor() *)
| EvExecute (query : obj)            (* protocol-level execute of query *)
| EvFetchall                         (* cursor.fetchall() *)
| EvClose.                           (* the cursor leaving its with-block *)

(** The client library and the server behind it are parameters: what a
    connection answers to [cursor()], and to [execute] and [fetchall]
    for each statement. *)
Record reply : Type :=
  { on_execute : outcome unit;
    on_fetchall : outcome (list (list obj)) }.
Record connection : Type :=
  { on_cursor : outcome unit;
    server : obj -> reply }.
Record cursor : Type :=
  { cur_conn : connection;
    cur_query : option obj;
    cur_vars : obj }.
Record driver : Type :=
  { psycopg2_connect : gmap string obj -> outcome connection }.

(** The two module-level lists, and the calls made so far. *)
Record world : Type :=
  { __func_names : list obj;
    __keywords : list obj;
    trace : list event }.

(** A list object passed as an argument is passed by reference. *)
Inductive list_ref : Type := FuncNames | Keywords.

Definition deref (r : list_ref) (w : world) : list obj :=
  match r with
  | FuncNames => __func_names w
  | Keywords => __keywords w
  end.

Definition store (r : list_ref) (l : list obj) (w : world) : world :=
  match r with
  | FuncNames =>
      {| __func_names := l; __keywords := __keywords w; trace := trace w |}
  | Keywords =>
      {| __func_names := __func_names w; __keywords := l; trace := trace w |}
  end.

(** Statements run in a state-and-exception monad over [world]; the
    state reached when an exception is raised is kept. *)
Definition M (A : Type) : Type := world -> outcome A * world.

Definition ret {A} (a : A) : M A := fun w => (Ok a, w).
Definition lift {A} (o : outcome A) : M A := fun w => (o, w).
Definition raise {A} (e : exn) : M A := fun w => (Raise e, w).
Definition bind {A B} (m : M A) (f : A -> M B) : M B :=
  fun w =>
    match m w with
    | (Ok a, w') => f a w'
    | (Raise e, w') => (Raise e, w')
    end.

Notation "'let!' x := c1 'in' c2" := (bind c1 (fun x => c2))
  (at level 10, x name, c1 at level 100, c2 at level 200, only parsing).
Notation "c1 ;;; c2" := (bind c1 (fun _ => c2))
  (at level 100, c2 at level 200, right associativity, only parsing).

Definition log (evs : list event) (w : world) : world :=
  {| __func_names := __func_names w;
     __keywords := __keywords w;
     trace := trace w ++ evs |}.

Definition emit (ev : event) : M unit := fun w => (Ok tt, log [ev] w).

(** [try: body  except cls: handler] *)
Definition try_except {A} (body : M A) (cls : exn -> bool) (handler : M A)
    : M A :=
  fun w =>
    match body w with
    | (Ok a, w') => (Ok a, w')
    | (Raise e, w') => if cls e then handler w' else (Raise e, w')
    end.

(** [for x in xs: body] *)
Fixpoint for_each {A} (xs : list A) (body : A -> M unit) : M unit :=
  match xs with
  | [] => ret tt
  | x :: xs' => body x ;;; for_each xs' body
  end.

(** [not l], [l.append(x)], [l.extend(xs)] on a referenced list. *)
Definition list_is_empty (r : list_ref) : M bool :=
  fun w => (Ok (match deref r w with [] => true | _ => false end), w).
Definition list_append (r : list_ref) (x : obj) : M unit :=
  fun w => (Ok tt, store r (deref r w ++ [x]) w).
Definition list_extend (r : list_ref) (xs : list obj) : M unit :=
  fun w => (Ok tt, store r (deref r w ++ xs) w).

(** [row[0]] *)
Definition getitem0 (row : list obj) : outcome obj :=
  match row with
  | x :: _ => Ok x
  | [] => Raise IndexError
  end.

(** [conn.cursor()] *)
Definition conn_cursor (conn : connection) : M cursor :=
  emit EvCursor ;;;
  lift (on_cursor conn) ;;;
  ret {| cur_conn := conn; cur_query := None; cur_vars := PyNone |}.

(** [psycopg2.extensions.cursor.execute(query, vars)]; the cursor keeps
    the statement whose rows it will hand out, and the parameters bound
    to it. *)
Definition super_execute (cur : cursor) (query vars : obj) : M cursor :=
  emit (EvExecute query) ;;;
  lift (on_execute (server (cur_conn cur) query)) ;;;
  ret {| cur_conn := cur_conn cur; cur_query := Some query;
         cur_vars := vars |}.

(** [[
    class Cursor(psycopg2.extensions.cursor):
        def execute(self, query, vars=None):
            return super().execute(remove_public_schema(query), vars)
    ]] *)
Definition Cursor_execute (self : cursor) (query vars : obj) : M cursor :=
  let! q := lift (remove_public_schema query) in
  super_execute self q vars.

(** [cursor.fetchall()]; without a statement there is nothing to fetch. *)
Definition fetchall (cur : cursor) : M (list (list obj)) :=
  emit EvFetchall ;;;
  match cur_query cur with
  | Some q => lift (on_fetchall (server (cur_conn cur) q))
  | None => raise (DatabaseError "ProgrammingError")
  end.

(** [with conn.cursor() as cur: body]: the cursor is closed on the way
    out, whether [body] returned or raised.  Closing a client-side cursor
    sends nothing to the server and does not raise. *)
Definition with_cursor {A} (conn : connection) (body : cursor -> M A)
    : M A :=
  let! cur := conn_cursor conn in
  fun w =>
    let (r, w') := body cur w in
    let (_, w'') := emit EvClose w' in
    (r, w'').

(** [[
    def __initialize_list(conn, sql_stmt, target_list, default_target_list):
        if not target_list:
            try:
                with conn.cursor() as functions_cur:
                    functions_cur.execute(sql_stmt)
                    for func_row in functions_cur.fetchall():
                        target_list.append(func_row[0])
            except psycopg2.DatabaseError:
                target_list.extend(default_target_list)
    ]] *)
Definition __initialize_list (conn : connection) (sql_stmt : obj)
    (target_list : list_ref) (default_target_list : list obj) : M unit :=
  let! empty := list_is_empty target_list in
  if empty then
    try_except
      (with_cursor conn (fun functions_cur =>
         let! functions_cur := Cursor_execute functions_cur sql_stmt PyNone in
         let! rows := fetchall functions_cur in
         for_each rows (fun func_row =>
           let! x := lift (getitem0 func_row) in
           list_append target_list x)))
      isinstance_DatabaseError
      (list_extend target_list default_target_list)
  else ret tt.

Definition __default_func_names : list obj :=
  map (fun s => PyStr (lit s))
   [
    "abs"; "acos"; "all_tables"; "and"; "asin"; "atan"; "atan2"; "avg";
    "base64"; "between"; "build"; "case"; "cast"; "ceil"; "ceiling";
    "coalesce"; "concat"; "cos"; "cot"; "count"; "count_distinct";
    "current_database"; "current_schema"; "current_schemas";
    "current_user"; "date_trunc"; "dateadd"; "datediff"; "day";
    "day_of_week"; "day_of_week_sunday_first"; "days_in_month";
    "degrees"; "dump_memory_usage"; "dump_thread_stacks"; "extract";
    "first"; "floor"; "flush_query_cache"; "format_type";
    "haversine_dist_deg"; "hour"; "ilike";
    "information_schema._pg_expandarray"; "isOrdered"; "is_leap_year";
    "ksum"; "last"; "left"; "length"; "like"; "list"; "log";
    "long_sequence"; "lower"; "lpad"; "ltrim"; "make_geohash"; "max";
    "memory_metrics"; "micros"; "millis"; "min"; "minute"; "month";
    "not"; "now"; "nsum"; "nullif"; "pg_advisory_unlock_all";
    "pg_attrdef"; "pg_attribute"; "pg_catalog.age";
    "pg_catalog.current_database"; "pg_catalog.current_schema";
    "pg_catalog.current_schemas"; "pg_catalog.pg_attrdef";
    "pg_catalog.pg_attribute"; "pg_catalog.pg_class";
    "pg_catalog.pg_database"; "pg_catalog.pg_description";
    "pg_catalog.pg_get_expr"; "pg_catalog.pg_get_keywords";
    "pg_catalog.pg_get_partkeydef"; "pg_catalog.pg_get_userbyid";
    "pg_catalog.pg_index"; "pg_catalog.pg_inherits";
    "pg_catalog.pg_is_in_recovery"; "pg_catalog.pg_locks";
    "pg_catalog.pg_namespace"; "pg_catalog.pg_roles";
    "pg_catalog.pg_shdescription"; "pg_catalog.pg_table_is_visible";
    "pg_catalog.pg_type"; "pg_catalog.txid_current";
    "pg_catalog.version"; "pg_class"; "pg_database"; "pg_description";
    "pg_get_expr"; "pg_get_keywords"; "pg_get_partkeydef"; "pg_index";
    "pg_inherits"; "pg_is_in_recovery"; "pg_locks"; "pg_namespace";
    "pg_postmaster_start_time"; "pg_proc"; "pg_range"; "pg_roles";
    "pg_type"; "position"; "power"; "radians"; "reader_pool";
    "regexp_replace"; "replace"; "right"; "rnd_bin"; "rnd_boolean";
    "rnd_byte"; "rnd_char"; "rnd_date"; "rnd_double"; "rnd_float";
    "rnd_geohash"; "rnd_int"; "rnd_log"; "rnd_long"; "rnd_long256";
    "rnd_short"; "rnd_str"; "rnd_symbol"; "rnd_timestamp"; "rnd_uuid4";
    "round"; "round_down"; "round_half_even"; "round_up"; "row_number";
    "rpad"; "rtrim"; "second"; "session_user"; "simulate_crash"; "sin";
    "size_pretty"; "split_part"; "sqrt"; "starts_with"; "stddev_samp";
    "string_agg"; "strpos"; "substring"; "sum"; "switch"; "sysdate";
    "systimestamp"; "table_columns"; "table_partitions";
    "table_writer_metrics"; "tables"; "tan"; "timestamp_ceil";
    "timestamp_floor"; "timestamp_sequence"; "timestamp_shuffle";
    "to_char"; "to_date"; "to_long128"; "to_lowercase"; "to_pg_date";
    "to_str"; "to_timestamp"; "to_timezone"; "to_uppercase"; "to_utc";
    "touch"; "trim"; "txid_current"; "typeOf"; "upper"; "version";
    "wal_tables"; "week_of_year"; "year"]%string.

Definition __default_keywords : list obj :=
  map (fun s => PyStr (lit s))
   [
    "add"; "all"; "alter"; "and"; "as"; "asc"; "asof"; "backup";
    "between"; "by"; "cache"; "capacity"; "case"; "cast"; "column";
    "columns"; "copy"; "create"; "cross"; "database"; "default";
    "delete"; "desc"; "distinct"; "drop"; "else"; "end"; "except";
    "exists"; "fill"; "foreign"; "from"; "grant"; "group"; "header";
    "if"; "in"; "index"; "inner"; "insert"; "intersect"; "into";
    "isolation"; "join"; "key"; "latest"; "limit"; "lock"; "lt"; "nan";
    "natural"; "nocache"; "none"; "not"; "null"; "on"; "only"; "or";
    "order"; "outer"; "over"; "partition"; "primary"; "references";
    "rename"; "repair"; "right"; "sample"; "select"; "show"; "splice";
    "system"; "table"; "tables"; "then"; "to"; "transaction"; "truncate";
    "type"; "union"; "unlock"; "update"; "values"; "when"; "where";
    "with"; "writer"]%string.

(** [def get_function_names(): return __func_names] *)
Definition get_function_names : M (list obj) :=
  fun w => (Ok (__func_names w), w).

(** [def get_keywords(): return __keywords] *)
Definition get_keywords : M (list obj) :=
  fun w => (Ok (__keywords w), w).

(** [d.get(k)] *)
Definition dict_get (d : gmap string obj) (k : string) : obj :=
  default PyNone (d !! k).

(** The function object [cursor_factory], which builds a [Cursor]. *)
Definition cursor_factory : obj := PyObject "cursor_factory" (Ok true).

(** The keyword arguments [connect] hands to [psycopg2.connect]: the
    five options are read in the order of the source, each with the
    truth test of [or], which may raise. *)
Definition connect_args (kwargs : gmap string obj)
    : outcome (gmap string obj) :=
  let* host := or_ (dict_get kwargs "host") (PyStr (lit "127.0.0.1")) in
  let* port := or_ (dict_get kwargs "port") (PyInt 8812) in
  let* user := or_ (dict_get kwargs "username") (PyStr (lit "admin")) in
  let* password := or_ (dict_get kwargs "password") (PyStr (lit "quest")) in
  let* database := or_ (dict_get kwargs "database") (PyStr (lit "main")) in
  Ok (<["cursor_factory" := cursor_factory]>
        (<["host" := host]>
           (<["port" := port]>
              (<["user" := user]>
                 (<["password" := password]>
                    (<["database" := database]> ∅)))))).

(** [[
    def connect( **kwargs ):
        host = kwargs.get("host") or "127.0.0.1"
        ...
        conn = psycopg2.connect(cursor_factory=cursor_factory, host=host,
                                port=port, user=user, password=password,
                                database=database)
        __initialize_list(conn, "SELECT name FROM functions()",
                          __func_names, __default_func_names)
        __initialize_list(conn, "SELECT keyword FROM keywords()",
                          __keywords, __default_keywords)
        return conn
    ]] *)
Definition connect (psycopg2 : driver) (kwargs : gmap string obj)
    : M connection :=
  let! args := lift (connect_args kwargs) in
  emit (EvConnect args) ;;;
  let! conn := lift (psycopg2_connect psycopg2 args) in
  __initialize_list conn (PyStr (lit "SELECT name FROM functions()"))
    FuncNames __default_func_names ;;;
  __initialize_list conn (PyStr (lit "SELECT keyword FROM keywords()"))
    Keywords __default_keywords ;;;
  ret conn.

(** The state of a freshly imported module. *)
Definition initial : world :=
  {| __func_names := []; __keywords := []; trace := [] |}.

End Questdb.
Import Questdb.

(* ================================================================== *)
(** ** Reading the pattern directly                                    *)
(* ================================================================== *)

Module Qualifier.
Import Re.

Definition ci : flags := re_flags public_schema_filter.

(** [w] read off the head of [s], letter by letter, under the flags of
    the pattern; the rest of [s] when it is there. *)
Fixpoint lits_prefix (w s : list N) : option (list N) :=
  match w, s with
  | [], _ => Some s
  | c :: w', x :: s' => if lit_eq ci c x then lits_prefix w' s' else None
  | _ :: _, [] => None
  end.

Definition unquoted : list N := lit "public.".
Definition quoted : list N := lit "'public'.".

(** A qualifier at the head of [s], in either form: the text after it. *)
Definition qualifier_at (s : list N) : option (list N) :=
  match lits_prefix quoted s with
  | Some rest => Some rest
  | None => lits_prefix unquoted s
  end.

(** A qualifier somewhere in [s]. *)
Fixpoint has_qualifier (s : list N) : bool :=
  match s with
  | [] => false
  | _ :: t => bool_decide (is_Some (qualifier_at s)) || has_qualifier t
  end.

(** The code point a letter of the pattern sees in [x]. *)
Definition fold (x : N) : N :=
  let lo := unicode_tolower x in
  if lo =? 0x131 then 0x69 else lo.

(** [m] is a qualifier: it reads [public.] or ['public'.] letter by
    letter. *)
Definition is_qualifier (m : list N) : Prop :=
  map fold m = quoted \/ map fold m = unquoted.

(** A quote or a letter of [public], in either case: what a qualifier
    is made of before its final dot. *)
Definition qualifier_letter (x : N) : bool :=
  bool_decide (fold x ∈ lit "'public").

(** Every qualifier of [prev :: s] other than one at its very head
    comes right after a code point that is not a [qualifier_letter]. *)
Fixpoint guarded_after (prev : N) (s : list N) : bool :=
  match s with
  | [] => true
  | c :: t =>
      (if bool_decide (is_Some (qualifier_at s))
       then negb (qualifier_letter prev) else true)
      && guarded_after c t
  end.

Definition guarded (s : list N) : bool :=
  match s with
  | [] => true
  | c :: t => guarded_after c t
  end.

(** The rewriter applied to its own result. *)
Definition rewrite_twice (query : obj) : outcome obj :=
  let* once := remove_public_schema query in
  remove_public_schema once.

(** The substitution the rewriter performs on a [str]. *)
Definition strip (s : list N) : list N := sub public_schema_filter [] s.

End Qualifier.

(* ================================================================== *)
(** ** Reading a connection's answers directly                         *)
(* ================================================================== *)

Module Population.

(** The two introspection statements of [connect]. *)
Definition functions_query : obj := PyStr (lit "SELECT name FROM functions()").
Definition keywords_query : obj := PyStr (lit "SELECT keyword FROM keywords()").

(** What a connection answers when [q] is run on a fresh cursor: its
    rows, or the first exception on the way to them. *)
Definition introspect (conn : connection) (q : obj)
    : outcome (list (list obj)) :=
  let* _ := on_cursor conn in
  let* _ := on_execute (server conn q) in
  on_fetchall (server conn q).

(** The calls made on the way. *)
Definition introspect_events (conn : connection) (q : obj) : list event :=
  EvCursor ::
  match on_cursor conn with
  | Raise _ => []
  | Ok _ =>
      EvExecute q ::
      match on_execute (server conn q) with
      | Raise _ => [EvClose]
      | Ok _ => [EvFetchall; EvClose]
      end
  end.

(** The first column of the rows, up to the first row without one. *)
Fixpoint first_column (rows : list (list obj)) : list obj * option exn :=
  match rows with
  | [] => ([], None)
  | [] :: _ => ([], Some IndexError)
  | (x :: _) :: rows' =>
      let (xs, e) := first_column rows' in (x :: xs, e)
  end.




#[global] Instance exn_eq_dec : EqDecision exn.
Proof. solve_decision. Defined.

#[global] Instance outcome_eq_dec {A} `{EqDecision A} : EqDecision (outcome A).
Proof. solve_decision. Defined.

#[global] Instance obj_eq_dec : EqDecision obj.
Proof. solve_decision. Defined.

(** A server of the current kind: it lists two functions, and answers
    the keyword query with a database error. *)
Definition sample_connection : connection :=
  {| on_cursor := Ok tt;
     server := fun q =>
       if decide (q = functions_query)
       then {| on_execute := Ok tt;
               on_fetchall := Ok [[PyStr (lit "now")]; [PyStr (lit "sum")]] |}
       else {| on_execute := Raise (DatabaseError "ProgrammingError");
               on_fetchall := Ok [] |} |}.

(** A connection whose cursors cannot be opened, for a reason that is
    no database error. *)
Definition broken_connection : connection :=
  {| on_cursor := Raise InterfaceError;
     server := fun _ => {| on_execute := Ok tt; on_fetchall := Ok [] |} |}.


Definition sample_driver (conn : connection) : driver :=
  {| psycopg2_connect := fun _ => Ok conn |}.

End Population.
Import Re Qualifier Population.

(* ================================================================== *)
(** ** Further readings used by the properties of the last sections    *)
(* ================================================================== *)

Module Behaviour.

(** A code point no qualifier contains: neither a quote, nor a dot, nor
    a letter of [public] in either case. *)
Definition outside_qualifier (x : N) : bool :=
  negb (bool_decide (fold x ∈ lit "'public.")).

(** An answer [__initialize_list] turns into a filled list without
    raising: rows that all have a first column, or a database error. *)
Definition fills (r : outcome (list (list obj))) : Prop :=
  match r with
  | Ok rows => (first_column rows).2 = None
  | Raise e => isinstance_DatabaseError e = true
  end.

(** The list such an answer leaves behind. *)
Definition filled_with (r : outcome (list (list obj))) (dflt : list obj)
    : list obj :=
  match r with
  | Ok rows => (first_column rows).1
  | Raise _ => dflt
  end.

(** A server that answers both introspection statements. *)
Definition listing_connection : connection :=
  {| on_cursor := Ok tt;
     server := fun q =>
       if decide (q = functions_query)
       then {| on_execute := Ok tt;
               on_fetchall := Ok [[PyStr (lit "now")]; [PyStr (lit "sum")]] |}
       else {| on_execute := Ok tt;
               on_fetchall := Ok [[PyStr (lit "add")]; [PyStr (lit "all")]] |} |}.

(** A server whose functions query succeeds with no row at all. *)
Definition silent_connection : connection :=
  {| on_cursor := Ok tt;
     server := fun _ => {| on_execute := Ok tt; on_fetchall := Ok [] |} |}.

(** A server whose second row comes without a column. *)
Definition short_row_connection : connection :=
  {| on_cursor := Ok tt;
     server := fun _ =>
       {| on_execute := Ok tt;
          on_fetchall := Ok [[PyStr (lit "now")]; []; [PyStr (lit "sum")]] |} |}.

(** A server of an older kind: it knows neither introspection
    statement and answers each with a database error. *)
Definition legacy_connection : connection :=
  {| on_cursor := Ok tt;
     server := fun _ =>
       {| on_execute := Raise (DatabaseError "ProgrammingError");
          on_fetchall := Ok [] |} |}.

(** The keyword arguments of the call when every option is absent or
    falsy. *)
Definition default_args : gmap string obj :=
  <["cursor_factory" := cursor_factory]>
    (<["host" := PyStr (lit "127.0.0.1")]>
       (<["port" := PyInt 8812]>
          (<["user" := PyStr (lit "admin")]>
             (<["password" := PyStr (lit "quest")]>
                (<["database" := PyStr (lit "main")]> ∅))))).


(** A client library that cannot connect. *)
Definition unreachable_driver : driver :=
  {| psycopg2_connect := fun _ => Raise (DatabaseError "OperationalError") |}.


End Behaviour.
Import Behaviour.

(* ================================================================== *)
(** ** The engine on the compiled pattern                              *)
(* ================================================================== *)

Section Engine.

Lemma run_lits f w s g k :
  run f (lits w) s g k =
  match (fix go (w s : list N) : option (list N) :=
           match w, s with
           | [], _ => Some s
           | c :: w', x :: s' => if lit_eq f c x then go w' s' else None
           | _ :: _, [] => None
           end) w s with
  | Some rest => k rest g
  | None => None
  end.
Proof.
  revert s; induction w as [|c w IH]; intros s; simpl; [done|].
  destruct s as [|x s]; [done|].
  destruct (lit_eq f c x); [apply IH | done].
Qed.

Lemma run_lits_ci w s g k :
  run ci (lits w) s g k =
  match lits_prefix w s with Some rest => k rest g | None => None end.
Proof. apply run_lits. Qed.

Lemma tolower_quote x : unicode_tolower x = 39 -> x = 39.
Proof.
  unfold unicode_tolower.
  destruct (65 <=? x) eqn:H1, (x <=? 90) eqn:H2; simpl;
    repeat case_match; try lia;
    apply N.leb_le in H1; lia.
Qed.

Lemma lit_eq_ci c x :
  lit_eq ci c x =
  existsb (N.eqb (unicode_tolower x))
    (unicode_tolower c :: ignorecase_fixes (unicode_tolower c)).
Proof. reflexivity. Qed.

Lemma lit_eq_quote x : lit_eq ci 39 x = true -> x = 39.
Proof.
  rewrite lit_eq_ci.
  change (unicode_tolower 39) with 39. change (ignorecase_fixes 39) with (@nil N).
  cbn [existsb]. rewrite orb_false_r.
  intros H%N.eqb_eq. by apply tolower_quote.
Qed.

Lemma ref_eq_quote x : ref_eq ci 39 x = lit_eq ci 39 x.
Proof.
  rewrite lit_eq_ci. unfold ref_eq. change (IGNORECASE ci) with true. cbv iota.
  change (unicode_tolower 39) with 39. change (ignorecase_fixes 39) with (@nil N).
  cbn [existsb]. rewrite orb_false_r. apply N.eqb_sym.
Qed.

Lemma lits_prefix_app w1 w2 s :
  lits_prefix (w1 ++ w2) s =
  match lits_prefix w1 s with
  | Some rest => lits_prefix w2 rest
  | None => None
  end.
Proof.
  revert s; induction w1 as [|c w1 IH]; intros s; [done|].
  destruct s as [|x s]; [done|].
  cbn [app lits_prefix]. destruct (lit_eq ci c x); [apply IH | done].
Qed.

Lemma lits_prefix_cons c w x s :
  lits_prefix (c :: w) (x :: s) =
  if lit_eq ci c x then lits_prefix w s else None.
Proof. reflexivity. Qed.

Lemma match_at_filter s : match_at public_schema_filter s = qualifier_at s.
Proof.
  unfold match_at, qualifier_at.
  change (re_flags public_schema_filter) with ci.
  change (pattern public_schema_filter) with
    (Seq (Opt (Group 1 (Lit 39)))
         (Group 2 (Seq (lits (lit "public"))
                       (Seq (IfGroup 1 (Backref 1) Eps) (Lit 46))))).
  cbn [run].
  rewrite !run_lits_ci.
  destruct s as [|x s]; [done|].
  change quoted with (39 :: lit "public" ++ [39; 46]).
  change unquoted with (lit "public" ++ [46]).
  rewrite ?run_lits_ci.
  replace (length (x :: s) - length s)%nat with 1%nat by (simpl; lia).
  cbv beta. unfold set_group, no_groups. cbn [Nat.eqb take].
  rewrite take_0, lits_prefix_app.
  rewrite (lits_prefix_cons 39).
  destruct (lit_eq ci 39 x) eqn:Hq.
  - apply lit_eq_quote in Hq as ->.
    rewrite lits_prefix_app.
    change (lits_prefix (lit "public") (39 :: s)) with (@None (list N)).
    destruct (lits_prefix (lit "public") s) as [[|y rest]|]; [done| |done].
    cbn [ref_match lits_prefix]. rewrite ref_eq_quote.
    destruct (lit_eq ci 39 y); [|done].
    destruct rest as [|z rest]; [done|].
    by destruct (lit_eq ci 46 z).
  - destruct (lits_prefix (lit "public") (x :: s)) as [[|y rest]|]; [done| |done].
    cbn [lits_prefix]. by destruct (lit_eq ci 46 y).
Qed.

End Engine.

(* ================================================================== *)
(** ** Qualifiers as folded text                                       *)
(* ================================================================== *)

Section Folding.

Lemma lit_eq_fold c x :
  c ∈ lit "'public." -> lit_eq ci c x = (fold x =? c).
Proof.
  intros Hc. rewrite lit_eq_ci. unfold fold.
  set (lo := unicode_tolower x).
  destruct (N.eqb_spec lo 0x131) as [->|Hne].
  - vm_compute in Hc. set_unfold in Hc.
    destruct_or!; subst c; reflexivity.
  - apply N.eqb_neq in Hne.
    vm_compute in Hc. set_unfold in Hc.
    destruct_or!; subst c;
      match goal with
      | |- context [unicode_tolower ?n] =>
          change (unicode_tolower n) with n;
          let fx := eval vm_compute in (ignorecase_fixes n) in
          change (ignorecase_fixes n) with fx
      end;
      cbn [existsb]; by rewrite ?Hne, ?orb_false_r.
Qed.

Lemma lits_prefix_fold w s rest :
  Forall (fun c => c ∈ lit "'public.") w ->
  lits_prefix w s = Some rest <-> exists m, s = m ++ rest /\ map fold m = w.
Proof.
  intros Hw; revert s; induction Hw as [|c w Hc Hw IH]; intros s.
  - split.
    + intros [= ->]. by exists [].
    + intros (m & -> & Hm). by destruct m.
  - destruct s as [|x s].
    + split; [done|]. intros (m & Hs & Hm). by destruct m.
    + rewrite lits_prefix_cons, (lit_eq_fold c x Hc).
      destruct (N.eqb_spec (fold x) c) as [<-|Hne].
      * rewrite IH. split.
        -- intros (m & -> & <-). by exists (x :: m).
        -- intros (m & Hs & Hm). destruct m as [|y m]; [done|].
           simplify_eq/=. by exists m.
      * split; [done|]. intros (m & Hs & Hm).
        destruct m as [|y m]; [done|]. by simplify_eq/=.
Qed.

Lemma quoted_letters : Forall (fun c => c ∈ lit "'public.") quoted.
Proof. compute_done. Qed.

Lemma unquoted_letters : Forall (fun c => c ∈ lit "'public.") unquoted.
Proof. compute_done. Qed.

(** A qualifier at the head of [s] is a word that folds to one of the
    two forms. *)
Lemma qualifier_at_Some s rest :
  qualifier_at s = Some rest ->
  exists m, s = m ++ rest /\ is_qualifier m.
Proof.
  unfold qualifier_at, is_qualifier.
  destruct (lits_prefix quoted s) as [r|] eqn:Hq.
  - intros [= ->]. apply (lits_prefix_fold _ _ _ quoted_letters) in Hq.
    destruct Hq as (m & ? & ?); eauto.
  - intros Hu. apply (lits_prefix_fold _ _ _ unquoted_letters) in Hu.
    destruct Hu as (m & ? & ?); eauto.
Qed.

Lemma qualifier_at_intro m rest :
  is_qualifier m -> qualifier_at (m ++ rest) = Some rest.
Proof.
  unfold qualifier_at. intros [Hm|Hm].
  - assert (lits_prefix quoted (m ++ rest) = Some rest) as ->; [|done].
    apply (lits_prefix_fold _ _ _ quoted_letters); eauto.
  - assert (lits_prefix quoted (m ++ rest) = None) as ->.
    { destruct m as [|x m]; [done|].
      change quoted with (39 :: lit "public'.").
      cbn [app]. rewrite lits_prefix_cons, lit_eq_fold by compute_done.
      cbn [map] in Hm. injection Hm as -> _. done. }
    apply (lits_prefix_fold _ _ _ unquoted_letters); eauto.
Qed.

Lemma qualifier_at_nil : qualifier_at [] = None.
Proof. reflexivity. Qed.

Lemma is_qualifier_length m :
  is_qualifier m -> exists x m', m = x :: m'.
Proof. intros [H|H]; destruct m; try done; eauto. Qed.

End Folding.

(* ================================================================== *)
(** ** The scan of [re.sub] on the compiled pattern                    *)
(* ================================================================== *)

Section Scan.

Lemma sub_from_skip p repl m rest :
  sub_from p repl (length m) (m ++ rest) = sub_from p repl 0 rest.
Proof.
  induction m as [|x m IH]; [by destruct rest|].
  cbn [length app sub_from]. apply IH.
Qed.

Lemma strip_nil : strip [] = [].
Proof. reflexivity. Qed.

Lemma strip_keep c t :
  qualifier_at (c :: t) = None -> strip (c :: t) = c :: strip t.
Proof.
  intros H. unfold strip, sub. cbn [sub_from].
  by rewrite match_at_filter, H.
Qed.

Lemma strip_skip m rest : is_qualifier m -> strip (m ++ rest) = strip rest.
Proof.
  intros Hm. destruct (is_qualifier_length m Hm) as (x & m' & ->).
  unfold strip, sub. cbn [app sub_from].
  rewrite match_at_filter.
  change (x :: m' ++ rest) with ((x :: m') ++ rest) at 1 2.
  rewrite (qualifier_at_intro _ rest Hm).
  replace (length ((x :: m') ++ rest) - length rest)%nat
    with (S (length m')) by (cbn [app length]; rewrite length_app; lia).
  apply sub_from_skip.
Qed.

(** The scan as an induction scheme: a text is empty, starts with a
    qualifier, or starts with a code point that is kept. *)
Lemma scan_ind (P : list N -> Prop) :
  P [] ->
  (forall m rest, is_qualifier m -> P rest -> P (m ++ rest)) ->
  (forall c t, qualifier_at (c :: t) = None -> P t -> P (c :: t)) ->
  forall s, P s.
Proof.
  intros Hnil Hskip Hkeep s.
  remember (length s) as n eqn:Hn. revert s Hn.
  induction n as [n IH] using lt_wf_ind. intros s ->.
  destruct s as [|c t]; [done|].
  destruct (qualifier_at (c :: t)) as [rest|] eqn:Hq.
  - apply qualifier_at_Some in Hq as (m & Heq & Hm).
    rewrite Heq in IH |- *.
    apply Hskip; [done|]. apply (IH (length rest)); [|done].
    destruct (is_qualifier_length m Hm) as (x & m' & ->).
    rewrite length_app; simpl; lia.
  - apply Hkeep; [done|]. apply (IH (length t)); simpl; [lia|done].
Qed.

(** A text without a qualifier is a fixed point of the scan. *)
Lemma strip_no_qualifier s : has_qualifier s = false -> strip s = s.
Proof.
  induction s as [|c t IH]; [done|].
  cbn [has_qualifier]. intros [Hc Ht]%orb_false_elim.
  apply bool_decide_eq_false, eq_None_not_Some in Hc.
  by rewrite strip_keep, IH.
Qed.

Lemma app_prefix_cases {A} (a y w r : list A) :
  a ++ y = w ++ r ->
  (exists a', a = w ++ a') \/ (exists w', w' <> [] /\ w = a ++ w').
Proof.
  revert w; induction a as [|x a IH]; intros [|z w] H.
  - left. by exists [].
  - right. by exists (z :: w).
  - left. by exists (x :: a).
  - simpl in H. injection H as -> H. destruct (IH _ H) as [[a' ->]|(w' & ? & ->)].
    + left. by exists a'.
    + right. by exists w'.
Qed.

Lemma letters_before_dot m l1 l2 x :
  is_qualifier m -> map fold m = l1 ++ l2 -> l2 <> [] -> x ∈ l1 ->
  x ∈ lit "'public".
Proof.
  intros Hm Heq Hl2 Hx.
  assert (x ∈ removelast (map fold m)) as Hin.
  { rewrite Heq, removelast_app by done. apply elem_of_app; by left. }
  revert Hin. generalize x.
  apply Forall_forall. destruct Hm as [-> | ->]; compute_done.
Qed.

(** A junction after a code point that is no qualifier letter: whatever
    text follows [a], no qualifier can start at the head of [a] and run
    past its end. *)
Lemma junction a t y x :
  qualifier_at (a ++ t) = None ->
  x ∈ a -> qualifier_letter x = false ->
  qualifier_at (a ++ y) = None.
Proof.
  intros Hnone Hx Hlet.
  destruct (qualifier_at (a ++ y)) as [r|] eqn:Hq; [exfalso|done].
  apply qualifier_at_Some in Hq as (m & Heq & Hm).
  destruct (app_prefix_cases _ _ _ _ Heq) as [[a' ->]|(w' & Hw' & ->)].
  - by rewrite <- app_assoc, (qualifier_at_intro _ _ Hm) in Hnone.
  - apply bool_decide_eq_false in Hlet. apply Hlet.
    apply (letters_before_dot _ (map fold a) (map fold w') _ Hm).
    + apply map_app.
    + by destruct w'.
    + by apply list_elem_of_fmap_2.
Qed.

End Scan.

(* ================================================================== *)
(** ** Guarded texts: one pass leaves no qualifier                     *)
(* ================================================================== *)

Section Guarded.

Lemma guarded_tail c t : guarded (c :: t) = true -> guarded t = true.
Proof.
  destruct t as [|d t]; [done|].
  cbn [guarded guarded_after]. by intros [_ ?]%andb_prop.
Qed.

Lemma guarded_drop m rest : guarded (m ++ rest) = true -> guarded rest = true.
Proof. induction m as [|x m IH]; [done|]. intros H%guarded_tail. auto. Qed.

(** In a guarded text the code point before a qualifier is no
    qualifier letter. *)
Lemma guarded_before p a t :
  guarded_after p (a ++ t) = true -> is_Some (qualifier_at t) ->
  exists x, x ∈ p :: a /\ qualifier_letter x = false.
Proof.
  revert p; induction a as [|x a IH]; intros p Hg Ht.
  - exists p. split; [by left|].
    destruct t as [|c t]; [by destruct Ht|].
    cbn [app guarded_after] in Hg. apply andb_prop in Hg as [Hg _].
    rewrite bool_decide_eq_true_2 in Hg by done.
    by apply negb_true_iff.
  - cbn [app guarded_after] in Hg. apply andb_prop in Hg as [_ Hg].
    destruct (IH _ Hg Ht) as (z & Hz & ?). exists z. split; [by right|done].
Qed.

(** Joining kept text to the rewritten remainder forms no qualifier
    at the head of the kept text. *)
Lemma strip_no_join t : forall a,
  a <> [] -> qualifier_at (a ++ t) = None -> guarded (a ++ t) = true ->
  qualifier_at (a ++ strip t) = None.
Proof.
  induction t as [|c t IH]; intros a Ha Hnone Hg; [done|].
  destruct (qualifier_at (c :: t)) as [rest|] eqn:Hq.
  - destruct a as [|p a]; [done|].
    destruct (guarded_before p a (c :: t)) as (x & Hx & Hlet); [done|by rewrite Hq|].
    by apply (junction _ (c :: t) _ x).
  - rewrite strip_keep by done.
    rewrite (cons_middle c a), app_assoc. apply IH.
    + by destruct a.
    + by rewrite <- app_assoc.
    + by rewrite <- app_assoc.
Qed.

Lemma strip_guarded s : guarded s = true -> has_qualifier (strip s) = false.
Proof.
  induction s as [|m rest Hm IH|c t Hc IH] using scan_ind; intros Hg.
  - done.
  - rewrite strip_skip by done. apply IH. by apply guarded_drop in Hg.
  - rewrite strip_keep by done. cbn [has_qualifier].
    apply orb_false_intro.
    + apply bool_decide_eq_false, eq_None_not_Some.
      by apply (strip_no_join t [c]).
    + apply IH. by apply guarded_tail in Hg.
Qed.

End Guarded.

(* ================================================================== *)
(** ** Text around a qualifier is rewritten on its own                 *)
(* ================================================================== *)

Section Around.

Ltac peel :=
  repeat (simplify_eq/=;
          try match goal with
              | H : _ :: _ = ?P ++ _ |- _ => is_var P; destruct P
              | H : ?P ++ _ = _ :: _ |- _ => is_var P; destruct P
              | H : [] = ?P ++ _ |- _ => is_var P; destruct P
              | H : ?P ++ _ = [] |- _ => is_var P; destruct P
              end).

(** No proper, non-empty tail of a qualifier begins like a qualifier. *)
Lemma no_overlap (w m : list N) p w' x :
  is_qualifier w -> is_qualifier m ->
  p <> [] -> w' <> [] -> map fold w = p ++ w' ->
  map fold m = w' ++ x \/ w' = map fold m ++ x -> False.
Proof.
  unfold is_qualifier.
  let q := eval vm_compute in quoted in change quoted with q.
  let u := eval vm_compute in unquoted in change unquoted with u.
  intros [Hw|Hw] [Hm|Hm] Hp Hw' Heq; rewrite Hw in Heq; rewrite Hm;
    intros [H|H]; peel.
Qed.

(** A qualifier that starts inside [pre] ends inside [pre]: none runs
    into the qualifier that follows. *)
Lemma no_straddle pre m post :
  pre <> [] -> qualifier_at pre = None -> is_qualifier m ->
  qualifier_at (pre ++ m ++ post) = None.
Proof.
  intros Hpre Hnone Hm.
  destruct (qualifier_at (pre ++ m ++ post)) as [r|] eqn:Hq; [exfalso|done].
  apply qualifier_at_Some in Hq as (w & Heq & Hw).
  destruct (app_prefix_cases _ _ _ _ Heq) as [[a' ->]|(w' & Hw' & ->)].
  - by rewrite (qualifier_at_intro _ _ Hw) in Hnone.
  - rewrite <- app_assoc in Heq. apply app_inv_head in Heq.
    assert (map fold pre <> []) as Hpre' by by destruct pre.
    assert (map fold w' <> []) as Hw'' by by destruct w'.
    destruct (app_prefix_cases _ _ _ _ Heq) as [[m' ->]|(x & Hx & ->)].
    + apply (no_overlap (pre ++ w') (w' ++ m') (map fold pre) (map fold w')
               (map fold m')); try done; [apply map_app|left; apply map_app].
    + apply (no_overlap (pre ++ m ++ x) m (map fold pre) (map fold (m ++ x))
               (map fold x)); try done; [apply map_app|right; apply map_app].
Qed.

(** Each qualifier of the input is deleted, and the text on either side
    of it is rewritten independently. *)
Lemma strip_around pre m post :
  is_qualifier m -> strip (pre ++ m ++ post) = strip pre ++ strip post.
Proof.
  intros Hm. induction pre as [|w rest Hw IH|c t Hc IH] using scan_ind.
  - cbn [app]. by rewrite (strip_skip m).
  - by rewrite <- app_assoc, !(strip_skip w).
  - cbn [app]. rewrite !strip_keep; [by rewrite IH|done|].
    by apply (no_straddle (c :: t)).
Qed.

End Around.

(* ================================================================== *)
(** ** The rewriter                                                    *)
(* ================================================================== *)

Section Rewriter.

(** On a [str] the rewriter is the scan behind a substring test. *)
Lemma remove_public_schema_str s :
  remove_public_schema (PyStr s) =
  Ok (PyStr (if str_contains (lit "public") s then strip s else s)).
Proof.
  destruct s as [|x s]; [done|].
  unfold remove_public_schema.
  cbn [truth isinstance_str contains obind re_sub].
  by destruct (str_contains _ _).
Qed.

Lemma startswith_app p x : startswith p (p ++ x) = true.
Proof.
  induction p as [|c p IH]; [done|].
  cbn [app startswith]. by rewrite N.eqb_refl, IH.
Qed.

Lemma str_contains_here p s : startswith p s = true -> str_contains p s = true.
Proof. intros H. destruct s; cbn [str_contains]; by rewrite H. Qed.

Lemma str_contains_app p a b : str_contains p (a ++ p ++ b) = true.
Proof.
  induction a as [|x a IH].
  - cbn [app]. apply str_contains_here, startswith_app.
  - cbn [app str_contains]. rewrite IH. apply orb_true_r.
Qed.

Lemma str_contains_mid p a x y b :
  str_contains p (a ++ (x ++ p ++ y) ++ b) = true.
Proof.
  replace (a ++ (x ++ p ++ y) ++ b) with ((a ++ x) ++ p ++ (y ++ b))
    by (by rewrite <- !app_assoc).
  apply str_contains_app.
Qed.

Lemma unquoted_is_qualifier : is_qualifier (lit "public.").
Proof. by right. Qed.

Lemma quoted_is_qualifier : is_qualifier (lit "'public'.").
Proof. by left. Qed.

(** C1: the pattern is case-insensitive, yet the rewriter returns
    "SELECT * FROM PUBLIC.Trades" as it came: the substring test that
    guards the substitution looks for the lower-case word only.  The
    substitution alone would give "SELECT * FROM Trades", and it does
    strip the upper-case qualifier once a lower-case one is around. *)
Theorem uppercase_qualifier_kept :
  remove_public_schema (PyStr (lit "SELECT * FROM PUBLIC.Trades"))
    = Ok (PyStr (lit "SELECT * FROM PUBLIC.Trades")) /\
  strip (lit "SELECT * FROM PUBLIC.Trades") = lit "SELECT * FROM Trades" /\
  remove_public_schema (PyStr (lit "SELECT public.a FROM PUBLIC.Trades"))
    = Ok (PyStr (lit "SELECT a FROM Trades")).
Proof. repeat split; vm_compute; reflexivity. Qed.

(** C2 (as stated, refuted): the text around a qualifier is not left
    as it is.  In "SELECT public.a FROM republic.t" the one reference to
    the schema is removed, and so is the tail of the table name that
    follows: the result is "SELECT a FROM ret", not
    "SELECT a FROM republic.t". *)
Lemma rest_of_text_not_kept :
  remove_public_schema (PyStr (lit "SELECT public.a FROM republic.t"))
    = Ok (PyStr (lit "SELECT a FROM ret")) /\
  remove_public_schema (PyStr (lit "SELECT public.a FROM republic.t"))
    <> Ok (PyStr (lit "SELECT a FROM republic.t")).
Proof. split; by vm_compute. Qed.

(** C2 (amended): the quoted and the unquoted lower-case qualifier are
    stripped alike.  "SELECT * FROM public.trades" and
    "SELECT * FROM 'public'.trades" both become "SELECT * FROM trades";
    around either form, anywhere in a text, the qualifier is deleted and
    the text before and after it is rewritten on its own, staying as it
    is where it holds no qualifier (in any letter case) itself. *)
Theorem strips_quoted_and_unquoted_alike :
  remove_public_schema (PyStr (lit "SELECT * FROM public.trades"))
    = Ok (PyStr (lit "SELECT * FROM trades")) /\
  remove_public_schema (PyStr (lit "SELECT * FROM 'public'.trades"))
    = Ok (PyStr (lit "SELECT * FROM trades")) /\
  (forall pre post,
     remove_public_schema (PyStr (pre ++ lit "public." ++ post))
       = Ok (PyStr (strip pre ++ strip post)) /\
     remove_public_schema (PyStr (pre ++ lit "'public'." ++ post))
       = Ok (PyStr (strip pre ++ strip post))) /\
  (forall s, has_qualifier s = false -> strip s = s).
Proof.
  split; [by vm_compute|]. split; [by vm_compute|].
  split; [|apply strip_no_qualifier].
  intros pre post. rewrite !remove_public_schema_str. split.
  - assert (str_contains (lit "public") (pre ++ lit "public." ++ post) = true)
      as -> by exact (str_contains_mid _ pre [] (lit ".") post).
    by rewrite (strip_around _ _ _ unquoted_is_qualifier).
  - assert (str_contains (lit "public") (pre ++ lit "'public'." ++ post) = true)
      as -> by exact (str_contains_mid _ pre (lit "'") (lit "'.") post).
    by rewrite (strip_around _ _ _ quoted_is_qualifier).
Qed.

(** C3 (as stated, refuted): a prefix before [public] does not protect
    it; "SELECT * FROM republic.x" is rewritten to "SELECT * FROM rex". *)
Lemma republic_rewritten :
  remove_public_schema (PyStr (lit "SELECT * FROM republic.x"))
    <> Ok (PyStr (lit "SELECT * FROM republic.x")).
Proof. by vm_compute. Qed.

(** C3 (amended): a text in which no [public] (in any letter case) is
    directly followed by a dot, nor a quoted ['public'] by a dot, is
    returned unchanged. *)
Theorem no_qualifier_unchanged s :
  has_qualifier s = false ->
  remove_public_schema (PyStr s) = Ok (PyStr s).
Proof.
  intros H. rewrite remove_public_schema_str, strip_no_qualifier by done.
  by destruct (str_contains _ _).
Qed.

Lemma no_qualifier_unchanged_witness :
  has_qualifier (lit "SELECT * FROM publication") = false /\
  remove_public_schema (PyStr (lit "SELECT * FROM publication"))
    = Ok (PyStr (lit "SELECT * FROM publication")).
Proof.
  split; [vm_compute; reflexivity|].
  apply no_qualifier_unchanged. vm_compute; reflexivity.
Defined.

(** C4 (as stated, refuted): deleting a qualifier can join the text
    around it into a new one; "pubpublic.lic.x" becomes "public.x" and,
    rewritten again, "x". *)
Lemma rewrite_not_idempotent :
  rewrite_twice (PyStr (lit "pubpublic.lic.x"))
    <> remove_public_schema (PyStr (lit "pubpublic.lic.x")).
Proof. by vm_compute. Qed.

(** C4 (amended): rewriting is idempotent on every text in which each
    qualifier stands at the very start or right after a code point that
    is neither a quote nor a letter of [public]. *)
Theorem rewrite_twice_guarded s :
  guarded s = true ->
  rewrite_twice (PyStr s) = remove_public_schema (PyStr s).
Proof.
  intros Hg. unfold rewrite_twice.
  rewrite remove_public_schema_str. cbn [obind].
  rewrite remove_public_schema_str.
  destruct (str_contains (lit "public") s) eqn:Hs; [|by rewrite Hs].
  rewrite (strip_no_qualifier (strip s)) by by apply strip_guarded.
  by destruct (str_contains (lit "public") (strip s)).
Qed.

Lemma rewrite_twice_guarded_witness :
  guarded (lit "SELECT * FROM public.trades, 'PUBLIC'.quotes") = true /\
  rewrite_twice (PyStr (lit "SELECT * FROM public.trades, 'PUBLIC'.quotes"))
    = remove_public_schema
        (PyStr (lit "SELECT * FROM public.trades, 'PUBLIC'.quotes")).
Proof.
  split; [vm_compute; reflexivity|].
  apply rewrite_twice_guarded. vm_compute; reflexivity.
Defined.

(** C8: a text without the lower-case substring "public" is returned
    unchanged. *)
Theorem no_public_substring_identity s :
  str_contains (lit "public") s = false ->
  remove_public_schema (PyStr s) = Ok (PyStr s).
Proof. intros H. by rewrite remove_public_schema_str, H. Qed.

Lemma no_public_substring_identity_witness :
  str_contains (lit "public") (lit "SELECT * FROM trades") = false /\
  remove_public_schema (PyStr (lit "SELECT * FROM trades"))
    = Ok (PyStr (lit "SELECT * FROM trades")).
Proof.
  split; [vm_compute; reflexivity|].
  apply no_public_substring_identity. vm_compute; reflexivity.
Defined.

(** C9 (as stated, refuted): the guard tests the truth of its input
    before it asks whether the input is a [str]; an object whose truth
    test raises, such as a SQLAlchemy clause, makes the rewriter raise
    that exception. *)
Lemma truth_test_raises :
  remove_public_schema
    (PyObject "sqlalchemy.sql.elements.TextClause" (Raise TypeError))
  = Raise TypeError.
Proof. reflexivity. Qed.

(** C9 (amended): the rewriter raises only what the truth test of its
    input raises.  On every input whose truth test returns, whatever is
    not a [str] ([None], numbers, bytes, other objects) and the empty
    [str] come back unchanged, and a non-empty [str] yields a [str]. *)
Theorem remove_public_schema_raises_only_from_truth query :
  match truth query with
  | Raise e => remove_public_schema query = Raise e
  | Ok _ =>
      match query with
      | PyStr (_ :: _) => exists t, remove_public_schema query = Ok (PyStr t)
      | _ => remove_public_schema query = Ok query
      end
  end.
Proof.
  destruct query as [| b | z | [|x s] | b | name t]; try reflexivity.
  - unfold remove_public_schema; cbn [truth obind]. by destruct b.
  - unfold remove_public_schema; cbn [truth obind isinstance_str].
    by destruct (negb _).
  - cbn [truth]. rewrite remove_public_schema_str. eauto.
  - unfold remove_public_schema; cbn [truth obind isinstance_str].
    by destruct b.
  - unfold remove_public_schema; cbn [truth obind isinstance_str].
    by destruct t as [[]|e].
Qed.

End Rewriter.

(* ================================================================== *)
(** ** Filling a capability list                                       *)
(* ================================================================== *)

Section Lists.

Lemma deref_store r l w : deref r (store r l w) = l.
Proof. by destruct r. Qed.

Lemma deref_log r evs w : deref r (log evs w) = deref r w.
Proof. by destruct r. Qed.

Lemma store_store r l l' w : store r l (store r l' w) = store r l w.
Proof. by destruct r. Qed.

Lemma store_deref r w : store r (deref r w) w = w.
Proof. by destruct r, w. Qed.

Lemma store_log r l evs w : store r l (log evs w) = log evs (store r l w).
Proof. by destruct r. Qed.

Lemma log_log evs evs' w : log evs' (log evs w) = log (evs ++ evs') w.
Proof. unfold log; simpl. by rewrite app_assoc. Qed.

Lemma trace_store r l w : trace (store r l w) = trace w.
Proof. by destruct r. Qed.

(** The other list is out of reach of a call on [r]. *)
Lemma deref_store_ne r r' l w : r <> r' -> deref r' (store r l w) = deref r' w.
Proof. by destruct r, r'. Qed.

Lemma first_column_error rows e :
  (first_column rows).2 = Some e -> e = IndexError.
Proof.
  induction rows as [|[|x row] rows IH]; simpl; [done|by intros [= <-]|].
  destruct (first_column rows). auto.
Qed.

Lemma first_column_singletons vals :
  first_column (map (fun v => [v]) vals) = (vals, None).
Proof. induction vals as [|v vals IH]; [done|]. simpl. by rewrite IH. Qed.

(** The loop over the fetched rows. *)
Lemma for_each_append rows target w :
  for_each rows
    (fun func_row =>
       bind (lift (getitem0 func_row)) (fun x => list_append target x)) w
  = (match (first_column rows).2 with None => Ok tt | Some e => Raise e end,
     store target (deref target w ++ (first_column rows).1) w).
Proof.
  revert w; induction rows as [|[|x row] rows IH]; intros w.
  - simpl. by rewrite app_nil_r, store_deref.
  - simpl. unfold bind, lift. simpl. by rewrite app_nil_r, store_deref.
  - cbn [for_each first_column]. unfold bind at 1. unfold bind at 1.
    unfold lift, getitem0, list_append. rewrite IH.
    rewrite deref_store, store_store.
    destruct (first_column rows) as [xs e]; simpl.
    by rewrite <- app_assoc.
Qed.

Lemma initialize_list_nonempty conn sql target dflt w :
  deref target w <> [] ->
  __initialize_list conn sql target dflt w = (Ok tt, w).
Proof.
  intros H. unfold __initialize_list, bind, list_is_empty.
  by destruct (deref target w).
Qed.

(** On an empty list: the rows the connection hands out decide. *)
Lemma initialize_list_empty conn sql q target dflt w :
  deref target w = [] -> remove_public_schema sql = Ok q ->
  __initialize_list conn sql target dflt w =
    let w1 := log (introspect_events conn q) w in
    match introspect conn q with
    | Raise e =>
        if isinstance_DatabaseError e
        then (Ok tt, store target dflt w1)
        else (Raise e, w1)
    | Ok rows =>
        (match (first_column rows).2 with None => Ok tt | Some e => Raise e end,
         store target (first_column rows).1 w1)
    end.
Proof.
  intros Hempty Hq.
  unfold __initialize_list, bind at 1, list_is_empty. rewrite Hempty.
  unfold try_except, with_cursor, conn_cursor, Cursor_execute, super_execute,
    fetchall, introspect, introspect_events.
  unfold bind, lift, emit, ret, raise, list_extend. rewrite Hq.
  cbn [obind cur_conn cur_query].
  destruct (on_cursor conn) as [[]|e]; cbn [obind cur_conn cur_query].
  2:{ destruct (isinstance_DatabaseError e); [|done].
      by rewrite deref_log, Hempty. }
  destruct (on_execute (server conn q)) as [[]|e]; cbn [obind cur_conn cur_query].
  2:{ rewrite !log_log. cbn [app].
      destruct (isinstance_DatabaseError e); [|done].
      by rewrite deref_log, Hempty. }
  destruct (on_fetchall (server conn q)) as [rows|e]; cbn [obind cur_conn cur_query].
  2:{ rewrite !log_log. cbn [app].
      destruct (isinstance_DatabaseError e); [|done].
      by rewrite deref_log, Hempty. }
  change (fun func_row : list obj => _) with
    (fun func_row : list obj =>
       bind (lift (getitem0 func_row)) (fun x => list_append target x)).
  rewrite for_each_append.
  rewrite !deref_log, Hempty, !store_log, !log_log. cbn [app].
  destruct ((first_column rows).2) as [e|] eqn:He; [|done].
  by rewrite (first_column_error _ _ He).
Qed.

End Lists.

(* ================================================================== *)
(** ** Connecting                                                      *)
(* ================================================================== *)

Section Connect.

(** On an empty list, when the rewriter raises on the statement: the
    cursor is open by then, nothing is sent, and the exception is
    handled like any other raised in the block. *)
Lemma initialize_list_rewriter_raises conn sql e target dflt w :
  deref target w = [] -> remove_public_schema sql = Raise e ->
  __initialize_list conn sql target dflt w =
    match on_cursor conn with
    | Ok _ =>
        if isinstance_DatabaseError e
        then (Ok tt, store target dflt (log [EvCursor; EvClose] w))
        else (Raise e, log [EvCursor; EvClose] w)
    | Raise e' =>
        if isinstance_DatabaseError e'
        then (Ok tt, store target dflt (log [EvCursor] w))
        else (Raise e', log [EvCursor] w)
    end.
Proof.
  intros Hempty Hq.
  unfold __initialize_list, bind at 1, list_is_empty. rewrite Hempty.
  unfold try_except, with_cursor, conn_cursor, Cursor_execute.
  unfold bind, lift, emit, ret, list_extend. rewrite Hq.
  destruct (on_cursor conn) as [[]|e']; cbn [obind].
  - rewrite !log_log. cbn [app].
    destruct (isinstance_DatabaseError e); [|done].
    by rewrite deref_log, Hempty.
  - destruct (isinstance_DatabaseError e'); [|done].
    by rewrite deref_log, Hempty.
Qed.

Lemma functions_query_sent :
  remove_public_schema functions_query = Ok functions_query.
Proof. by vm_compute. Qed.

Lemma keywords_query_sent :
  remove_public_schema keywords_query = Ok keywords_query.
Proof. by vm_compute. Qed.

Lemma log_nil w : log [] w = w.
Proof. destruct w. unfold log; simpl. by rewrite app_nil_r. Qed.

Lemma introspect_events_execute conn q q' :
  EvExecute q' ∈ introspect_events conn q -> q' = q.
Proof.
  unfold introspect_events.
  destruct (on_cursor conn), (on_execute (server conn q));
    rewrite ?elem_of_cons, elem_of_nil; intros H; destruct_or!; by simplify_eq.
Qed.

(** What a call of [__initialize_list] can do to the state: store into
    its own list and ask the server; neither when the list is filled. *)
Lemma initialize_list_effect conn sql q target dflt w :
  remove_public_schema sql = Ok q ->
  exists l evs,
    (__initialize_list conn sql target dflt w).2 = store target l (log evs w) /\
    (deref target w <> [] -> l = deref target w /\ evs = []) /\
    (forall q', EvExecute q' ∈ evs -> q' = q).
Proof.
  intros Hq. destruct (deref target w) as [|x l] eqn:Hl.
  - rewrite (initialize_list_empty _ _ q) by done. cbv zeta.
    destruct (introspect conn q) as [rows|e].
    + eexists _, _. split; [done|]. split; [done|].
      apply introspect_events_execute.
    + destruct (isinstance_DatabaseError e).
      * eexists _, _. split; [done|]. split; [done|].
        apply introspect_events_execute.
      * exists [], (introspect_events conn q).
        split; [|split; [done|apply introspect_events_execute]].
        cbn [snd]. by rewrite <- (store_deref target) at 1;
          rewrite deref_log, Hl.
  - rewrite initialize_list_nonempty by by rewrite Hl.
    exists (x :: l), []. split; [|split; [done|set_solver]].
    cbn [snd]. by rewrite log_nil, <- Hl, store_deref.
Qed.

Lemma connect_unfold psycopg2 kwargs w :
  connect psycopg2 kwargs w =
    match connect_args kwargs with
    | Raise e => (Raise e, w)
    | Ok args =>
        let w0 := log [EvConnect args] w in
        match psycopg2_connect psycopg2 args with
        | Raise e => (Raise e, w0)
        | Ok conn =>
            match __initialize_list conn functions_query FuncNames
                    __default_func_names w0 with
            | (Raise e, w1) => (Raise e, w1)
            | (Ok _, w1) =>
                match __initialize_list conn keywords_query Keywords
                        __default_keywords w1 with
                | (Raise e, w2) => (Raise e, w2)
                | (Ok _, w2) => (Ok conn, w2)
                end
            end
        end
    end.
Proof.
  unfold connect, bind, emit, lift, ret.
  destruct (connect_args kwargs) as [args|e0]; [|done]. cbv zeta.
  destruct (psycopg2_connect _ _) as [conn|e]; [|done].
  change (PyStr (lit "SELECT name FROM functions()")) with functions_query.
  change (PyStr (lit "SELECT keyword FROM keywords()")) with keywords_query.
  destruct (__initialize_list conn functions_query _ _ _) as [[[]|e] w1]; [|done].
  by destruct (__initialize_list conn keywords_query _ _ _) as [[[]|e] w2].
Qed.

(** The state after [connect]: both lists stored into, the call to
    the library logged first; a filled list is stored back as it was,
    and its statement is not sent. *)
Lemma connect_effect psycopg2 kwargs w :
  exists l1 l2 evs,
    (connect psycopg2 kwargs w).2 =
      store Keywords l2 (store FuncNames l1 (log evs w)) /\
    (forall args, connect_args kwargs = Ok args ->
       exists evs', evs = EvConnect args :: evs') /\
    (__func_names w <> [] ->
       l1 = __func_names w /\ EvExecute functions_query ∉ evs) /\
    (__keywords w <> [] ->
       l2 = __keywords w /\ EvExecute keywords_query ∉ evs).
Proof.
  rewrite connect_unfold.
  destruct (connect_args kwargs) as [args|e0].
  2:{ exists (__func_names w), (__keywords w), [].
      split; [rewrite log_nil; by destruct w|]. split; [done|].
      split; intros _; (split; [done|apply not_elem_of_nil]). }
  cbv zeta. set (w0 := log [EvConnect args] w).
  destruct (psycopg2_connect _ _) as [conn|e].
  2:{ exists (__func_names w), (__keywords w), [EvConnect args].
      split; [by destruct w|]. split; [intros ? [= <-]; by exists []|].
      split; intros _; (split; [done|]); rewrite not_elem_of_cons;
        (split; [done|apply not_elem_of_nil]). }
  destruct (initialize_list_effect conn functions_query functions_query
              FuncNames __default_func_names w0 functions_query_sent)
    as (l1 & evs1 & Hw1 & Hfull1 & Hev1).
  destruct (__initialize_list conn functions_query _ _ _) as [r1 w1].
  cbn [snd] in Hw1. subst w1.
  set (w1 := store FuncNames l1 (log evs1 w0)).
  destruct (initialize_list_effect conn keywords_query keywords_query
              Keywords __default_keywords w1 keywords_query_sent)
    as (l2 & evs2 & Hw2 & Hfull2 & Hev2).
  assert (forall l evs,
            store Keywords l (log evs w1) =
            store Keywords l
              (store FuncNames l1 (log (EvConnect args :: evs1 ++ evs) w)))
    as Hshape.
  { intros l evs. unfold w1, w0.
    by rewrite <- store_log, !log_log. }
  assert (functions_query <> keywords_query) as Hne by done.
  destruct r1 as [[]|e1].
  - exists l1, l2, (EvConnect args :: evs1 ++ evs2). split; [|split; [|split]].
    + destruct (__initialize_list conn keywords_query _ _ _) as [[[]|e2] w2];
        cbn [snd] in Hw2 |- *; subst w2; apply Hshape.
    + intros ? [= <-]. eauto.
    + intros Hf. destruct Hfull1 as [-> ->]; [done|]. split; [done|].
      cbn [app]. rewrite not_elem_of_cons. split; [done|].
      intros Hin. by apply Hev2 in Hin.
    + intros Hk. destruct Hfull2 as [-> ->]; [done|]. split; [done|].
      rewrite app_nil_r, not_elem_of_cons. split; [done|].
      intros Hin. by apply Hev1 in Hin.
  - exists l1, (__keywords w), (EvConnect args :: evs1). split; [|split; [|split]].
    + cbn [snd]. unfold w1, w0. rewrite log_log. by destruct w.
    + intros ? [= <-]. eauto.
    + intros Hf. destruct Hfull1 as [-> ->]; [done|]. split; [done|].
      rewrite not_elem_of_cons. split; [done|apply not_elem_of_nil].
    + intros Hk. split; [done|]. rewrite not_elem_of_cons. split; [done|].
      intros Hin. by apply Hev1 in Hin.
Qed.












(** After [connect] the functions list holds what the first call of
    [__initialize_list] stored: the second call stores elsewhere. *)
Lemma connect_func_names psycopg2 kwargs args conn w r1 w1 :
  connect_args kwargs = Ok args ->
  psycopg2_connect psycopg2 args = Ok conn ->
  __initialize_list conn functions_query FuncNames __default_func_names
    (log [EvConnect args] w) = (r1, w1) ->
  __func_names (connect psycopg2 kwargs w).2 = __func_names w1.
Proof.
  intros Hargs Hconn H1. rewrite connect_unfold, Hargs, Hconn. cbv zeta.
  rewrite H1.
  destruct r1 as [[]|e]; [|done].
  destruct (initialize_list_effect conn keywords_query keywords_query
              Keywords __default_keywords w1 keywords_query_sent)
    as (l2 & evs2 & Hw2 & _).
  by destruct (__initialize_list conn keywords_query _ _ _) as [[[]|e2] w2];
    cbn [snd] in Hw2 |- *; subst w2.
Qed.

(** When the first call returns, [connect] ends as the second call of
    [__initialize_list] ends. *)
Lemma connect_keywords psycopg2 kwargs args conn w :
  connect_args kwargs = Ok args ->
  psycopg2_connect psycopg2 args = Ok conn ->
  let w1 :=
    (__initialize_list conn functions_query FuncNames __default_func_names
       (log [EvConnect args] w)).2 in
  (__initialize_list conn functions_query FuncNames __default_func_names
     (log [EvConnect args] w)).1 = Ok tt ->
  connect psycopg2 kwargs w =
    (match (__initialize_list conn keywords_query Keywords
              __default_keywords w1).1 with
     | Ok _ => Ok conn
     | Raise e => Raise e
     end,
     (__initialize_list conn keywords_query Keywords __default_keywords w1).2).
Proof.
  intros Hargs Hconn w1 H1. rewrite connect_unfold, Hargs, Hconn. cbv zeta.
  unfold w1. destruct (__initialize_list conn functions_query _ _ _) as [r1 w1'].
  cbn [fst snd] in *. subst r1.
  by destruct (__initialize_list conn keywords_query _ _ _) as [[[]|e2] w2].
Qed.

Lemma initialize_list_never_database_error conn sql target dflt w e :
  (__initialize_list conn sql target dflt w).1 = Raise e ->
  isinstance_DatabaseError e = false.
Proof.
  destruct (deref target w) as [|x l] eqn:Hl.
  2:{ by rewrite initialize_list_nonempty by by rewrite Hl. }
  destruct (remove_public_schema sql) as [q|e0] eqn:Hq.
  - rewrite (initialize_list_empty _ _ q) by done. cbv zeta.
    destruct (introspect conn q) as [rows|e'].
    + cbn [fst]. destruct ((first_column rows).2) as [e'|] eqn:Hcol; [|done].
      intros [= <-]. by rewrite (first_column_error _ _ Hcol).
    + destruct (isinstance_DatabaseError e') eqn:He'; [done|].
      by intros [= <-].
  - rewrite (initialize_list_rewriter_raises _ _ e0) by done.
    destruct (on_cursor conn) as [[]|e'].
    + destruct (isinstance_DatabaseError e0) eqn:He0; [done|]. by intros [= <-].
    + destruct (isinstance_DatabaseError e') eqn:He'; [done|]. by intros [= <-].
Qed.

(** C6: filling an empty list when the introspection query fails.  A
    database error (from opening the cursor, from executing or from
    fetching) is caught and leaves exactly the default list in the
    target.  Through [connect] this holds of each list with its own
    compiled-in default: [get_function_names] returns
    [__default_func_names], and, when filling the function names did not
    raise, [get_keywords] returns [__default_keywords] and [connect]
    returns the connection.  Any other exception, an [IndexError] on a
    row without a column included, comes out of [__initialize_list],
    which itself never raises a database error, and whatever
    [__initialize_list] raises [connect] raises. *)
Theorem database_error_falls_back :
  (forall conn sql q target dflt w cls,
     deref target w = [] -> remove_public_schema sql = Ok q ->
     introspect conn q = Raise (DatabaseError cls) ->
     (__initialize_list conn sql target dflt w).1 = Ok tt /\
     deref target (__initialize_list conn sql target dflt w).2 = dflt) /\
  (forall psycopg2 kwargs args conn w cls,
     connect_args kwargs = Ok args ->
     psycopg2_connect psycopg2 args = Ok conn ->
     __func_names w = [] ->
     introspect conn functions_query = Raise (DatabaseError cls) ->
     (get_function_names (connect psycopg2 kwargs w).2).1
       = Ok __default_func_names) /\
  (forall psycopg2 kwargs args conn w cls,
     connect_args kwargs = Ok args ->
     psycopg2_connect psycopg2 args = Ok conn ->
     (__initialize_list conn functions_query FuncNames __default_func_names
        (log [EvConnect args] w)).1 = Ok tt ->
     __keywords w = [] ->
     introspect conn keywords_query = Raise (DatabaseError cls) ->
     (connect psycopg2 kwargs w).1 = Ok conn /\
     (get_keywords (connect psycopg2 kwargs w).2).1 = Ok __default_keywords) /\
  (forall conn sql q target dflt w e,
     deref target w = [] -> remove_public_schema sql = Ok q ->
     isinstance_DatabaseError e = false ->
     introspect conn q = Raise e
     \/ (exists rows, introspect conn q = Ok rows
                      /\ (first_column rows).2 = Some e) ->
     (__initialize_list conn sql target dflt w).1 = Raise e) /\
  (forall conn sql target dflt w e,
     (__initialize_list conn sql target dflt w).1 = Raise e ->
     isinstance_DatabaseError e = false) /\
  (forall psycopg2 kwargs args conn w e w',
     connect_args kwargs = Ok args ->
     psycopg2_connect psycopg2 args = Ok conn ->
     __initialize_list conn functions_query FuncNames __default_func_names
       (log [EvConnect args] w) = (Raise e, w')
     \/ (exists w1,
           __initialize_list conn functions_query FuncNames
             __default_func_names
             (log [EvConnect args] w) = (Ok tt, w1)
           /\ __initialize_list conn keywords_query Keywords
                __default_keywords w1 = (Raise e, w')) ->
     connect psycopg2 kwargs w = (Raise e, w')).
Proof.
  split; [|split; [|split; [|split; [|split]]]].
  - intros conn sql q target dflt w cls Hempty Hq Hdb.
    rewrite (initialize_list_empty _ _ q), Hdb by done.
    cbn [isinstance_DatabaseError fst snd]. by rewrite deref_store.
  - intros psycopg2 kwargs args conn w cls Hargs Hconn Hempty Hdb.
    unfold get_function_names. cbn [fst]. f_equal.
    erewrite connect_func_names; [|done|done|].
    2:{ rewrite (initialize_list_empty _ _ functions_query), Hdb;
          [|done|apply functions_query_sent].
        cbn [isinstance_DatabaseError]. reflexivity. }
    done.
  - intros psycopg2 kwargs args conn w cls Hargs Hconn H1 Hempty Hdb.
    rewrite (connect_keywords _ _ _ _ _ Hargs Hconn H1).
    destruct (initialize_list_effect conn functions_query functions_query
                FuncNames __default_func_names (log [EvConnect args] w)
                functions_query_sent) as (l1 & evs1 & -> & _).
    rewrite (initialize_list_empty _ _ keywords_query), Hdb;
      [|by rewrite deref_store_ne, deref_log|apply keywords_query_sent].
    cbn [isinstance_DatabaseError fst snd]. split; [done|].
    unfold get_keywords. cbn [fst]. f_equal;
      try apply (deref_store Keywords).
  - intros conn sql q target dflt w e Hempty Hq He [Hr|(rows & Hr & Hcol)];
      rewrite (initialize_list_empty _ _ q), Hr by done.
    + by rewrite He.
    + by rewrite Hcol.
  - apply initialize_list_never_database_error.
  - intros psycopg2 kwargs args conn w e w' Hargs Hconn H.
    rewrite connect_unfold, Hargs, Hconn. cbv zeta.
    destruct H as [-> | (w1 & -> & ->)]; done.
Qed.

Lemma database_error_falls_back_witness :
  (introspect sample_connection keywords_query
     = Raise (DatabaseError "ProgrammingError") /\
   deref Keywords
     (__initialize_list sample_connection keywords_query Keywords
        __default_keywords initial).2 = __default_keywords) /\
  (introspect broken_connection functions_query = Raise InterfaceError /\
   (__initialize_list broken_connection functions_query FuncNames
      __default_func_names initial).1 = Raise InterfaceError) /\
  ((connect (sample_driver sample_connection) ∅ initial).1
     = Ok sample_connection /\
   (get_keywords (connect (sample_driver sample_connection) ∅ initial).2).1
     = Ok __default_keywords).
Proof.
  split; [|split]; [split; [reflexivity|] | split; [reflexivity|] | ].
  - apply (proj1 database_error_falls_back sample_connection keywords_query
             keywords_query Keywords __default_keywords initial
             "ProgrammingError"%string); reflexivity.
  - apply (proj1 (proj2 (proj2 (proj2 database_error_falls_back)))
             broken_connection
             functions_query functions_query FuncNames __default_func_names
             initial InterfaceError); try reflexivity.
    left; reflexivity.
  - apply (proj1 (proj2 (proj2 database_error_falls_back))
             (sample_driver sample_connection) ∅ default_args
             sample_connection initial "ProgrammingError"%string);
      reflexivity.
Defined.

(** C7: filling is guarded by emptiness.  On an empty list, when the
    query succeeds with single-column rows, the list afterwards holds
    the values of the rows in the order received, duplicates kept.
    Through [connect] this holds of each list with its own statement:
    [get_function_names] returns the values of the functions rows, and,
    when filling the function names did not raise, [get_keywords]
    returns the values of the keywords rows and [connect] returns the
    connection.  A list that is not empty is left as it is without a
    call to the server, and across [connect] a filled list stays as it
    was and its statement is not executed again. *)
Theorem population_guarded_by_emptiness :
  (forall conn sql q target dflt w vals,
     deref target w = [] -> remove_public_schema sql = Ok q ->
     introspect conn q = Ok (map (fun v => [v]) vals) ->
     (__initialize_list conn sql target dflt w).1 = Ok tt /\
     deref target (__initialize_list conn sql target dflt w).2 = vals) /\
  (forall psycopg2 kwargs args conn w vals,
     connect_args kwargs = Ok args ->
     psycopg2_connect psycopg2 args = Ok conn ->
     __func_names w = [] ->
     introspect conn functions_query = Ok (map (fun v => [v]) vals) ->
     (get_function_names (connect psycopg2 kwargs w).2).1 = Ok vals) /\
  (forall psycopg2 kwargs args conn w vals,
     connect_args kwargs = Ok args ->
     psycopg2_connect psycopg2 args = Ok conn ->
     (__initialize_list conn functions_query FuncNames __default_func_names
        (log [EvConnect args] w)).1 = Ok tt ->
     __keywords w = [] ->
     introspect conn keywords_query = Ok (map (fun v => [v]) vals) ->
     (connect psycopg2 kwargs w).1 = Ok conn /\
     (get_keywords (connect psycopg2 kwargs w).2).1 = Ok vals) /\
  (forall conn sql target dflt w,
     deref target w <> [] ->
     __initialize_list conn sql target dflt w = (Ok tt, w)) /\
  (forall psycopg2 kwargs w,
     (__func_names w <> [] ->
        __func_names (connect psycopg2 kwargs w).2 = __func_names w /\
        forall evs, trace (connect psycopg2 kwargs w).2 = trace w ++ evs ->
                    EvExecute functions_query ∉ evs) /\
     (__keywords w <> [] ->
        __keywords (connect psycopg2 kwargs w).2 = __keywords w /\
        forall evs, trace (connect psycopg2 kwargs w).2 = trace w ++ evs ->
                    EvExecute keywords_query ∉ evs)).
Proof.
  split; [|split; [|split; [|split]]].
  - intros conn sql q target dflt w vals Hempty Hq Hrows.
    rewrite (initialize_list_empty _ _ q), Hrows by done.
    rewrite first_column_singletons. cbn [fst snd]. by rewrite deref_store.
  - intros psycopg2 kwargs args conn w vals Hargs Hconn Hempty Hrows.
    unfold get_function_names. cbn [fst]. f_equal.
    erewrite connect_func_names; [|done|done|].
    2:{ rewrite (initialize_list_empty _ _ functions_query), Hrows;
          [|done|apply functions_query_sent].
        rewrite first_column_singletons. reflexivity. }
    done.
  - intros psycopg2 kwargs args conn w vals Hargs Hconn H1 Hempty Hrows.
    rewrite (connect_keywords _ _ _ _ _ Hargs Hconn H1).
    destruct (initialize_list_effect conn functions_query functions_query
                FuncNames __default_func_names (log [EvConnect args] w)
                functions_query_sent) as (l1 & evs1 & -> & _).
    rewrite (initialize_list_empty _ _ keywords_query), Hrows;
      [|by rewrite deref_store_ne, deref_log|apply keywords_query_sent].
    rewrite first_column_singletons. cbn [fst snd]. split; [done|].
    unfold get_keywords. cbn [fst]. f_equal;
      try apply (deref_store Keywords).
  - intros. by apply initialize_list_nonempty.
  - intros psycopg2 kwargs w.
    destruct (connect_effect psycopg2 kwargs w)
      as (l1 & l2 & evs0 & -> & _ & Hf & Hk).
    split; intros Hfull.
    + destruct (Hf Hfull) as [-> Hno]. split; [done|].
      intros evs. rewrite !trace_store. cbn [log trace].
      by intros <-%app_inv_head.
    + destruct (Hk Hfull) as [-> Hno]. split; [done|].
      intros evs. rewrite !trace_store. cbn [log trace].
      by intros <-%app_inv_head.
Qed.

Lemma population_guarded_by_emptiness_witness :
  (introspect sample_connection functions_query
     = Ok [[PyStr (lit "now")]; [PyStr (lit "sum")]] /\
   deref FuncNames
     (__initialize_list sample_connection functions_query FuncNames
        __default_func_names initial).2
     = [PyStr (lit "now"); PyStr (lit "sum")]) /\
  ((connect (sample_driver listing_connection) ∅ initial).1
     = Ok listing_connection /\
   (get_keywords (connect (sample_driver listing_connection) ∅ initial).2).1
     = Ok [PyStr (lit "add"); PyStr (lit "all")]).
Proof.
  split; (split; [reflexivity|]).
  - apply (proj1 population_guarded_by_emptiness sample_connection
             functions_query functions_query FuncNames __default_func_names
             initial [PyStr (lit "now"); PyStr (lit "sum")]); reflexivity.
  - apply (proj1 (proj2 (proj2 population_guarded_by_emptiness))
             (sample_driver listing_connection) ∅ default_args
             listing_connection initial
             [PyStr (lit "add"); PyStr (lit "all")]);
      reflexivity.
Defined.

(** A connection that cannot open a cursor: [connect] raises what
    [cursor()] raised, and both lists stay empty. *)
Example connect_broken :
  connect (sample_driver broken_connection) ∅ initial
  = (Raise InterfaceError, log [EvConnect default_args; EvCursor] initial).
Proof. vm_compute. reflexivity. Qed.

(** Two connects in a row against the sample server: the first fills
    both lists (the keywords from the defaults), the second only calls
    the library. *)
Example connect_twice :
  let lib := sample_driver sample_connection in
  let w1 := (connect lib ∅ initial).2 in
  let w2 := (connect lib ∅ w1).2 in
  (get_function_names w1).1 = Ok [PyStr (lit "now"); PyStr (lit "sum")] /\
  (get_keywords w1).1 = Ok __default_keywords /\
  trace w1 =
    [EvConnect default_args;
     EvCursor; EvExecute functions_query; EvFetchall; EvClose;
     EvCursor; EvExecute keywords_query; EvClose] /\
  __func_names w2 = __func_names w1 /\
  __keywords w2 = __keywords w1 /\
  trace w2 = trace w1 ++ [EvConnect default_args].
Proof. vm_compute. repeat split. Qed.

End Connect.

(* ================================================================== *)
(** ** More on the rewriter                                            *)
(* ================================================================== *)

Section RewriterBehaviour.

Lemma strip_sublist s : strip s `sublist_of` s.
Proof.
  induction s as [|m rest Hm IH|c t Hc IH] using scan_ind.
  - done.
  - rewrite strip_skip by done. by apply sublist_inserts_l.
  - rewrite strip_keep by done. by apply sublist_skip.
Qed.

Lemma strip_shrinks s :
  has_qualifier s = true -> (length (strip s) < length s)%nat.
Proof.
  induction s as [|m rest Hm IH|c t Hc IH] using scan_ind.
  - done.
  - intros _. rewrite strip_skip by done.
    pose proof (sublist_length _ _ (strip_sublist rest)).
    destruct (is_qualifier_length m Hm) as (x & m' & ->).
    rewrite length_app. simpl. lia.
  - cbn [has_qualifier]. rewrite Hc.
    rewrite bool_decide_eq_false_2 by by intros [? ?].
    cbn [orb]. intros H%IH. rewrite strip_keep by done. simpl. lia.
Qed.

Lemma qualifier_inside m x : is_qualifier m -> x ∈ m -> outside_qualifier x = false.
Proof.
  intros Hm Hx. unfold outside_qualifier.
  apply negb_false_iff, bool_decide_eq_true.
  assert (fold x ∈ map fold m) as Hin by by apply list_elem_of_fmap_2.
  revert Hin. generalize (fold x). apply Forall_forall.
  destruct Hm as [-> | ->]; [apply quoted_letters|apply unquoted_letters].
Qed.

Lemma filter_none {A} (f : A -> bool) (l : list A) :
  (forall x, x ∈ l -> f x = false) -> List.filter f l = [].
Proof.
  induction l as [|a l IH]; intros H; [done|].
  cbn [List.filter]. rewrite (H a) by by left.
  apply IH. intros x Hx. apply H. by right.
Qed.

Lemma strip_keeps_outside s :
  List.filter outside_qualifier (strip s) = List.filter outside_qualifier s.
Proof.
  induction s as [|m rest Hm IH|c t Hc IH] using scan_ind.
  - done.
  - rewrite strip_skip, List.filter_app by done.
    rewrite (filter_none _ m) by (intros x; apply (qualifier_inside m x Hm)).
    done.
  - rewrite strip_keep by done. cbn [List.filter]. by rewrite IH.
Qed.

(** X1: the compiled pattern matches at the head of a text exactly when
    the text starts with a word that reads [public.] or ['public'.]
    letter by letter, in any letter case, and the match is that word. *)
Theorem pattern_matches_qualifier s rest :
  match_at public_schema_filter s = Some rest <->
  exists m, s = m ++ rest /\ is_qualifier m.
Proof.
  rewrite match_at_filter. split.
  - apply qualifier_at_Some.
  - intros (m & -> & Hm). by apply qualifier_at_intro.
Qed.

(** X2: the rewriter only deletes.  Its result on a [str] is a
    subsequence of the input, so never longer than it. *)
Theorem rewriter_only_deletes s :
  exists t, remove_public_schema (PyStr s) = Ok (PyStr t) /\
            t `sublist_of` s /\ (length t <= length s)%nat.
Proof.
  rewrite remove_public_schema_str. eexists. split; [done|].
  destruct (str_contains _ _).
  - split; [apply strip_sublist|apply sublist_length, strip_sublist].
  - done.
Qed.

(** X3: what the rewriter deletes are quotes, dots and letters of
    [public] only: every other code point of the input is in the
    result, in the same order. *)
Theorem rewriter_keeps_other_text s :
  exists t, remove_public_schema (PyStr s) = Ok (PyStr t) /\
            List.filter outside_qualifier t = List.filter outside_qualifier s.
Proof.
  rewrite remove_public_schema_str. eexists. split; [done|].
  destruct (str_contains _ _); [apply strip_keeps_outside|done].
Qed.

(** X4: the rewriter returns a [str] as it came exactly when the text
    lacks the lower-case substring "public" or holds no qualifier. *)
Theorem rewriter_fixed_points s :
  remove_public_schema (PyStr s) = Ok (PyStr s) <->
  str_contains (lit "public") s = false \/ has_qualifier s = false.
Proof.
  rewrite remove_public_schema_str. split.
  - destruct (str_contains _ _); [|by left]. intros [= Heq]. right.
    destruct (has_qualifier s) eqn:Hq; [|done].
    apply strip_shrinks in Hq. rewrite Heq in Hq. lia.
  - intros [-> | Hq]; [done|].
    rewrite strip_no_qualifier by done. by destruct (str_contains _ _).
Qed.

(** X5: on a text that holds the lower-case word and in which each
    qualifier stands at the start or after a code point that is neither
    a quote nor a letter of [public], one pass leaves no qualifier. *)
Theorem rewritten_text_has_no_qualifier s :
  guarded s = true -> str_contains (lit "public") s = true ->
  exists t, remove_public_schema (PyStr s) = Ok (PyStr t) /\
            has_qualifier t = false.
Proof.
  intros Hg Hc. rewrite remove_public_schema_str, Hc.
  eexists. split; [done|]. by apply strip_guarded.
Qed.

Lemma rewritten_text_has_no_qualifier_witness :
  exists t,
    remove_public_schema
      (PyStr (lit "SELECT public.a FROM 'PUBLIC'.t, Public.u")) = Ok (PyStr t) /\
    has_qualifier t = false.
Proof.
  apply rewritten_text_has_no_qualifier; vm_compute; reflexivity.
Defined.

(** X6: a qualifier in any letter case is deleted once the text holds
    the lower-case word somewhere, and the text before and after it is
    rewritten on its own. *)
Theorem any_case_qualifier_stripped pre m post :
  is_qualifier m ->
  str_contains (lit "public") (pre ++ m ++ post) = true ->
  remove_public_schema (PyStr (pre ++ m ++ post))
    = Ok (PyStr (strip pre ++ strip post)).
Proof.
  intros Hm Hc. by rewrite remove_public_schema_str, Hc, strip_around.
Qed.

Lemma any_case_qualifier_stripped_witness :
  remove_public_schema
    (PyStr (lit "SELECT public.a FROM " ++ lit "'PubLIC'." ++ lit "Trades"))
  = Ok (PyStr (strip (lit "SELECT public.a FROM ") ++ strip (lit "Trades"))).
Proof.
  apply any_case_qualifier_stripped; [left; reflexivity|vm_compute; reflexivity].
Defined.

Lemma remove_public_schema_by_truth query :
  match truth query with
  | Raise e => remove_public_schema query = Raise e
  | Ok _ =>
      exists q, remove_public_schema query = Ok q /\
                (isinstance_str query = false -> q = query)
  end.
Proof.
  destruct query as [| b | z | s | b | name t].
  - by exists PyNone.
  - exists (PyBool b). unfold remove_public_schema; cbn [truth obind].
    by destruct b.
  - exists (PyInt z). unfold remove_public_schema; cbn [truth obind isinstance_str].
    by destruct (negb _).
  - cbn [truth]. rewrite remove_public_schema_str. eexists. by split.
  - exists (PyBytes b).
    unfold remove_public_schema; cbn [truth obind isinstance_str]. by destruct b.
  - cbn [truth]. destruct t as [b|e]; [|done]. exists (PyObject name (Ok b)).
    unfold remove_public_schema; cbn [truth obind isinstance_str]. by destruct b.
Qed.

(** X7: [Cursor.execute] hands the protocol-level [execute] the result
    of the rewriter, with the parameters as they were given, and sends
    that one statement; a query that is no [str] is handed over as it
    came.  It raises on its own only when the truth test of the query
    raises, and then before anything is sent. *)
Theorem Cursor_execute_delegates self query vars w :
  match truth query with
  | Raise e => Cursor_execute self query vars w = (Raise e, w)
  | Ok _ =>
      exists q,
        remove_public_schema query = Ok q /\
        (isinstance_str query = false -> q = query) /\
        Cursor_execute self query vars w = super_execute self q vars w /\
        trace (Cursor_execute self query vars w).2 = trace w ++ [EvExecute q]
  end.
Proof.
  pose proof (remove_public_schema_by_truth query) as H.
  destruct (truth query) as [b|e].
  - destruct H as (q & Hq & Hsame). exists q. split; [done|]. split; [done|].
    unfold Cursor_execute, bind at 1, lift. rewrite Hq. split; [done|].
    unfold super_execute, bind, emit, lift, ret.
    by destruct (on_execute _).
  - unfold Cursor_execute, bind, lift. by rewrite H.
Qed.

End RewriterBehaviour.

(* ================================================================== *)
(** ** More on the capability lists and on connecting                  *)
(* ================================================================== *)

Section PopulationBehaviour.

Lemma initialize_list_trace conn sql q target dflt w :
  deref target w = [] -> remove_public_schema sql = Ok q ->
  trace (__initialize_list conn sql target dflt w).2
    = trace w ++ introspect_events conn q.
Proof.
  intros Hempty Hq. rewrite (initialize_list_empty _ _ q) by done. cbv zeta.
  destruct (introspect conn q) as [rows|e];
    [|destruct (isinstance_DatabaseError e)]; cbn [snd];
    by rewrite ?trace_store.
Qed.

Lemma initialize_list_fills conn sql q target dflt w :
  deref target w = [] -> remove_public_schema sql = Ok q ->
  fills (introspect conn q) ->
  __initialize_list conn sql target dflt w =
    (Ok tt,
     store target (filled_with (introspect conn q) dflt)
       (log (introspect_events conn q) w)).
Proof.
  intros Hempty Hq Hfills. rewrite (initialize_list_empty _ _ q) by done.
  cbv zeta. unfold fills, filled_with in *.
  destruct (introspect conn q) as [rows|e]; by rewrite Hfills.
Qed.

Lemma first_column_short_row vals rest :
  first_column (map (fun v => [v]) vals ++ [] :: rest) = (vals, Some IndexError).
Proof. induction vals as [|v vals IH]; [done|]. simpl. by rewrite IH. Qed.

Lemma default_func_names_nonempty : __default_func_names <> [].
Proof. done. Qed.

Lemma log_as_store target evs w :
  log evs w = store target (deref target w) (log evs w).
Proof. by rewrite <- (deref_log target evs w), store_deref. Qed.

(** Whatever the statement and the answers: a call stores into its
    own list and adds to the trace. *)
Lemma initialize_list_stores conn sql target dflt w :
  exists l evs,
    (__initialize_list conn sql target dflt w).2 = store target l (log evs w).
Proof.
  destruct (remove_public_schema sql) as [q|e] eqn:Hq.
  { destruct (initialize_list_effect conn sql q target dflt w Hq)
      as (l & evs & -> & _). eauto. }
  destruct (deref target w) as [|x l] eqn:Hl.
  - rewrite (initialize_list_rewriter_raises _ _ e) by done.
    destruct (on_cursor conn) as [[]|e'];
      [destruct (isinstance_DatabaseError e)
      |destruct (isinstance_DatabaseError e')]; cbn [snd];
      eexists _, _; (reflexivity || apply (log_as_store target)).
  - rewrite initialize_list_nonempty by by rewrite Hl.
    exists (deref target w), []. cbn [snd].
    by rewrite log_nil, store_deref.
Qed.

(** X8: filling one list never touches the other, whatever the server
    answers and however the call ends. *)
Theorem other_list_untouched conn sql target other dflt w :
  other <> target ->
  deref other (__initialize_list conn sql target dflt w).2 = deref other w.
Proof.
  intros Hne.
  destruct (initialize_list_stores conn sql target dflt w) as (l & evs & ->).
  by rewrite deref_store_ne, deref_log.
Qed.

Lemma other_list_untouched_witness :
  deref Keywords
    (__initialize_list sample_connection functions_query FuncNames
       __default_func_names initial).2
  = deref Keywords initial.
Proof. apply other_list_untouched. discriminate. Defined.

(** X9: a cursor opened to fill a list is closed before
    [__initialize_list] is left, whether the statement succeeded, raised
    a database error or raised anything else; it is the only cursor
    opened. *)
Theorem cursor_always_closed conn sql target dflt w :
  deref target w = [] -> on_cursor conn = Ok tt ->
  exists evs,
    trace (__initialize_list conn sql target dflt w).2
      = trace w ++ EvCursor :: evs ++ [EvClose] /\
    EvCursor ∉ evs.
Proof.
  intros Hempty Hcur. destruct (remove_public_schema sql) as [q|e] eqn:Hq.
  - rewrite (initialize_list_trace _ _ q) by done.
    unfold introspect_events. rewrite Hcur.
    destruct (on_execute (server conn q)).
    + exists [EvExecute q; EvFetchall]. split; [done|].
      rewrite !not_elem_of_cons. repeat split; try done. apply not_elem_of_nil.
    + exists [EvExecute q]. split; [done|].
      rewrite !not_elem_of_cons. repeat split; try done. apply not_elem_of_nil.
  - rewrite (initialize_list_rewriter_raises _ _ e), Hcur by done.
    exists []. split; [|apply not_elem_of_nil].
    by destruct (isinstance_DatabaseError e); cbn [snd]; rewrite ?trace_store.
Qed.

Lemma cursor_always_closed_witness :
  exists evs,
    trace (__initialize_list short_row_connection functions_query FuncNames
             __default_func_names initial).2
      = trace initial ++ EvCursor :: evs ++ [EvClose] /\
    EvCursor ∉ evs.
Proof. apply cursor_always_closed; reflexivity. Defined.

(** X10: a query that succeeds with no row leaves the list empty, and
    an empty list is queried again by the next call: emptiness is the
    only record of having asked. *)
Theorem empty_answer_is_asked_again conn sql q target dflt w :
  deref target w = [] -> remove_public_schema sql = Ok q ->
  introspect conn q = Ok [] ->
  let asked := [EvCursor; EvExecute q; EvFetchall; EvClose] in
  __initialize_list conn sql target dflt w = (Ok tt, log asked w) /\
  __initialize_list conn sql target dflt (log asked w)
    = (Ok tt, log (asked ++ asked) w).
Proof.
  intros Hempty Hq Hrows asked.
  assert (introspect_events conn q = asked) as Hev.
  { unfold introspect, introspect_events in *.
    destruct (on_cursor conn) as [[]|]; [|done].
    by destruct (on_execute (server conn q)) as [[]|]. }
  assert (forall w', deref target w' = [] ->
            __initialize_list conn sql target dflt w' = (Ok tt, log asked w'))
    as Hstep.
  { intros w' Hw'. rewrite (initialize_list_fills _ _ q), Hrows, Hev; try done.
    - cbn [filled_with first_column fst]. f_equal.
      rewrite <- (store_deref target (log asked w')) at 2.
      by rewrite deref_log, Hw'.
    - by rewrite Hrows. }
  split; [by apply Hstep|].
  rewrite Hstep by by rewrite deref_log. by rewrite log_log.
Qed.

Lemma empty_answer_is_asked_again_witness :
  __initialize_list silent_connection functions_query FuncNames
    __default_func_names initial
  = (Ok tt,
     log [EvCursor; EvExecute functions_query; EvFetchall; EvClose] initial) /\
  __initialize_list silent_connection functions_query FuncNames
    __default_func_names
    (log [EvCursor; EvExecute functions_query; EvFetchall; EvClose] initial)
  = (Ok tt,
     log ([EvCursor; EvExecute functions_query; EvFetchall; EvClose] ++
          [EvCursor; EvExecute functions_query; EvFetchall; EvClose]) initial).
Proof.
  apply (empty_answer_is_asked_again silent_connection functions_query
           functions_query FuncNames __default_func_names initial);
    reflexivity.
Defined.

(** X11: the fallback is permanent.  Once a database error has put the
    default function names in place, a later [connect], to whatever
    server, keeps them and does not send the functions statement. *)
Theorem fallback_is_permanent psycopg2 kwargs args conn w cls psycopg2' kwargs' :
  connect_args kwargs = Ok args ->
  psycopg2_connect psycopg2 args = Ok conn ->
  __func_names w = [] ->
  introspect conn functions_query = Raise (DatabaseError cls) ->
  let w1 := (connect psycopg2 kwargs w).2 in
  let w2 := (connect psycopg2' kwargs' w1).2 in
  __func_names w2 = __default_func_names /\
  forall evs, trace w2 = trace w1 ++ evs -> EvExecute functions_query ∉ evs.
Proof.
  intros Hargs Hconn Hempty Hdb w1 w2.
  assert (__func_names w1 = __default_func_names) as H1.
  { unfold w1. erewrite connect_func_names; [|done|done|].
    2:{ rewrite (initialize_list_fills _ _ functions_query);
          [reflexivity|done|apply functions_query_sent|by rewrite Hdb]. }
    by rewrite Hdb. }
  destruct (connect_effect psycopg2' kwargs' w1)
    as (l1 & l2 & evs0 & Hw2 & _ & Hf & _).
  fold w2 in Hw2. destruct Hf as [-> Hno].
  { rewrite H1. apply default_func_names_nonempty. }
  rewrite Hw2. split; [by rewrite <- H1|].
  intros evs. rewrite !trace_store. cbn [log trace].
  by intros <-%app_inv_head.
Qed.

Lemma fallback_is_permanent_witness :
  __func_names
    (connect (sample_driver sample_connection) ∅
       (connect (sample_driver legacy_connection) ∅ initial).2).2
  = __default_func_names.
Proof.
  apply (fallback_is_permanent (sample_driver legacy_connection) ∅
           default_args legacy_connection initial "ProgrammingError"%string
           (sample_driver sample_connection) ∅); reflexivity.
Defined.

(** X12: when each introspection query either succeeds with rows that
    have a first column or fails with a database error, [connect] on
    empty lists returns the connection of the client library, and each
    list is decided by its own query alone: the first column of its
    rows, or its default. *)
Theorem connect_fills_each_list_from_its_query psycopg2 kwargs args conn w :
  connect_args kwargs = Ok args ->
  psycopg2_connect psycopg2 args = Ok conn ->
  __func_names w = [] -> __keywords w = [] ->
  fills (introspect conn functions_query) ->
  fills (introspect conn keywords_query) ->
  (connect psycopg2 kwargs w).1 = Ok conn /\
  __func_names (connect psycopg2 kwargs w).2
    = filled_with (introspect conn functions_query) __default_func_names /\
  __keywords (connect psycopg2 kwargs w).2
    = filled_with (introspect conn keywords_query) __default_keywords.
Proof.
  intros Hargs Hconn Hf Hk Hff Hfk.
  rewrite connect_unfold, Hargs, Hconn. cbv zeta.
  rewrite (initialize_list_fills _ _ functions_query);
    [|done|apply functions_query_sent|done].
  rewrite (initialize_list_fills _ _ keywords_query);
    [|done|apply keywords_query_sent|done].
  done.
Qed.

Lemma connect_fills_each_list_from_its_query_witness :
  (connect (sample_driver sample_connection) ∅ initial).1
    = Ok sample_connection /\
  __func_names (connect (sample_driver sample_connection) ∅ initial).2
    = [PyStr (lit "now"); PyStr (lit "sum")] /\
  __keywords (connect (sample_driver sample_connection) ∅ initial).2
    = __default_keywords.
Proof.
  apply (connect_fills_each_list_from_its_query
           (sample_driver sample_connection) ∅ default_args
           sample_connection initial);
    reflexivity.
Defined.

(** X13: an exception other than a database error while the function
    names are fetched ends [connect] at once: the keywords statement is
    not sent and both lists stay as they were. *)
Theorem first_failure_skips_keywords psycopg2 kwargs args conn w e :
  connect_args kwargs = Ok args ->
  psycopg2_connect psycopg2 args = Ok conn ->
  __func_names w = [] ->
  isinstance_DatabaseError e = false ->
  introspect conn functions_query = Raise e ->
  connect psycopg2 kwargs w =
    (Raise e,
     log (EvConnect args :: introspect_events conn functions_query) w) /\
  EvExecute keywords_query ∉ introspect_events conn functions_query.
Proof.
  intros Hargs Hconn Hempty He Hr. split.
  - rewrite connect_unfold, Hargs, Hconn. cbv zeta.
    rewrite (initialize_list_empty _ _ functions_query), Hr, He;
      [|done|apply functions_query_sent].
    cbv zeta. by rewrite log_log.
  - intros Hin. by apply introspect_events_execute in Hin.
Qed.

Lemma first_failure_skips_keywords_witness :
  connect (sample_driver broken_connection) ∅ initial =
    (Raise InterfaceError,
     log (EvConnect default_args
            :: introspect_events broken_connection functions_query) initial) /\
  EvExecute keywords_query ∉ introspect_events broken_connection functions_query.
Proof.
  apply (first_failure_skips_keywords (sample_driver broken_connection) ∅
           default_args broken_connection initial InterfaceError); reflexivity.
Defined.

(** X14: a row without a column stops the loop with [IndexError] and the
    values of the rows before it stay in the list; when there are any,
    no later call completes or replaces them. *)
Theorem short_row_leaves_partial_list conn sql q target dflt w vals rest :
  deref target w = [] -> remove_public_schema sql = Ok q ->
  introspect conn q = Ok (map (fun v => [v]) vals ++ [] :: rest) ->
  let w1 := (__initialize_list conn sql target dflt w).2 in
  (__initialize_list conn sql target dflt w).1 = Raise IndexError /\
  deref target w1 = vals /\
  (vals <> [] ->
   forall conn' sql' dflt',
     __initialize_list conn' sql' target dflt' w1 = (Ok tt, w1)).
Proof.
  intros Hempty Hq Hrows w1. unfold w1.
  rewrite (initialize_list_empty _ _ q), Hrows by done. cbv zeta.
  rewrite first_column_short_row. cbn [fst snd].
  split; [done|]. rewrite deref_store. split; [done|].
  intros Hne conn' sql' dflt'. apply initialize_list_nonempty.
  by rewrite deref_store.
Qed.

Lemma short_row_leaves_partial_list_witness :
  (__initialize_list short_row_connection functions_query FuncNames
     __default_func_names initial).1 = Raise IndexError /\
  deref FuncNames
    (__initialize_list short_row_connection functions_query FuncNames
       __default_func_names initial).2 = [PyStr (lit "now")] /\
  ([PyStr (lit "now")] <> [] ->
   forall conn' sql' dflt',
     __initialize_list conn' sql' FuncNames dflt'
       (__initialize_list short_row_connection functions_query FuncNames
          __default_func_names initial).2
     = (Ok tt,
        (__initialize_list short_row_connection functions_query FuncNames
           __default_func_names initial).2)).
Proof.
  apply (short_row_leaves_partial_list short_row_connection functions_query
           functions_query FuncNames __default_func_names initial
           [PyStr (lit "now")] [[PyStr (lit "sum")]]); reflexivity.
Defined.



(** X16: an exception of the client library's [connect], a database
    error included, leaves [connect] as it is: there is no fallback at
    this point, no cursor is opened and both lists stay as they were. *)
Theorem connect_failure_propagates psycopg2 kwargs args w e :
  connect_args kwargs = Ok args ->
  psycopg2_connect psycopg2 args = Raise e ->
  connect psycopg2 kwargs w = (Raise e, log [EvConnect args] w) /\
  __func_names (connect psycopg2 kwargs w).2 = __func_names w /\
  __keywords (connect psycopg2 kwargs w).2 = __keywords w.
Proof. intros Hargs H. by rewrite connect_unfold, Hargs, H. Qed.

Lemma connect_failure_propagates_witness :
  connect unreachable_driver ∅ initial
    = (Raise (DatabaseError "OperationalError"),
       log [EvConnect default_args] initial) /\
  __func_names (connect unreachable_driver ∅ initial).2 = __func_names initial /\
  __keywords (connect unreachable_driver ∅ initial).2 = __keywords initial.
Proof. apply connect_failure_propagates; reflexivity. Defined.

(** X17: [connect] never raises a database error that came from filling
    the lists, and the connection it returns is the one the client
    library gave it: what it raises is what reading the options raised,
    what the client library's [connect] raised, or no database error. *)
Theorem connect_outcome_from_library psycopg2 kwargs w :
  match (connect psycopg2 kwargs w).1 with
  | Ok conn =>
      exists args, connect_args kwargs = Ok args /\
                   psycopg2_connect psycopg2 args = Ok conn
  | Raise e =>
      connect_args kwargs = Raise e \/
      (exists args, connect_args kwargs = Ok args /\
                    psycopg2_connect psycopg2 args = Raise e) \/
      isinstance_DatabaseError e = false
  end.
Proof.
  rewrite connect_unfold.
  destruct (connect_args kwargs) as [args|e0]; [|by left]. cbv zeta.
  destruct (psycopg2_connect _ _) as [conn|e] eqn:Hconn;
    [|right; left; by exists args].
  set (w0 := log _ w).
  pose proof (initialize_list_never_database_error conn functions_query FuncNames
                __default_func_names w0) as H1.
  destruct (__initialize_list conn functions_query _ _ _) as [[[]|e1] w1].
  2:{ right. right. by apply H1. }
  pose proof (initialize_list_never_database_error conn keywords_query Keywords
                __default_keywords w1) as H2.
  destruct (__initialize_list conn keywords_query _ _ _) as [[[]|e2] w2];
    [by exists args|].
  right. right. by apply H2.
Qed.



End PopulationBehaviour.

(* ================================================================== *)
(** ** The rewriter is local                                           *)
(* ================================================================== *)

Section Locality.

Lemma outside_not_first x t : outside_qualifier x = true -> qualifier_at (x :: t) = None.
Proof.
  intros Hx. destruct (qualifier_at (x :: t)) as [rest|] eqn:Hq; [exfalso|done].
  apply qualifier_at_Some in Hq as (m & Heq & Hm).
  destruct (is_qualifier_length m Hm) as (y & m' & ->).
  simpl in Heq. injection Heq as <- _.
  assert (outside_qualifier x = false) as Hin
    by (apply (qualifier_inside (x :: m')); [done|by left]).
  congruence.
Qed.

(** A qualifier cannot run across a code point that is outside. *)
Lemma no_match_across a x b :
  outside_qualifier x = true -> qualifier_at a = None ->
  qualifier_at (a ++ x :: b) = None.
Proof.
  intros Hx Hnone.
  destruct (qualifier_at (a ++ x :: b)) as [rest|] eqn:Hq; [exfalso|done].
  apply qualifier_at_Some in Hq as (m & Heq & Hm).
  destruct (app_prefix_cases _ _ _ _ Heq) as [[a' ->]|(w' & Hw' & ->)].
  - by rewrite (qualifier_at_intro _ _ Hm) in Hnone.
  - rewrite <- app_assoc in Heq. apply app_inv_head in Heq.
    destruct w' as [|y w']; [done|]. simpl in Heq. injection Heq as <- _.
    assert (outside_qualifier x = false) as Hin.
    { apply (qualifier_inside _ x Hm). apply elem_of_app. right. by left. }
    congruence.
Qed.

Lemma strip_across a x b :
  outside_qualifier x = true -> strip (a ++ x :: b) = strip a ++ x :: strip b.
Proof.
  intros Hx. induction a as [|m rest Hm IH|c t Hc IH] using scan_ind.
  - cbn [app]. by rewrite strip_keep by by apply outside_not_first.
  - by rewrite <- app_assoc, !(strip_skip m).
  - cbn [app]. rewrite !strip_keep; [by rewrite IH|done|].
    by apply (no_match_across (c :: t)).
Qed.

Lemma fold_dot x : fold x = 46 -> x = 46.
Proof.
  unfold fold, unicode_tolower.
  destruct (65 <=? x) eqn:H1, (x <=? 90) eqn:H2; simpl;
    repeat case_match; try lia;
    apply N.leb_le in H1; lia.
Qed.

Lemma qualifier_has_dot m : is_qualifier m -> 46 ∈ m.
Proof.
  intros Hm.
  assert (46 ∈ map fold m) as Hin by (destruct Hm as [-> | ->]; compute_done).
  apply list_elem_of_fmap in Hin as (x & Hx & Hin).
  symmetry in Hx. by apply fold_dot in Hx as ->.
Qed.

Lemma has_qualifier_dot s : has_qualifier s = true -> 46 ∈ s.
Proof.
  induction s as [|c t IH]; [done|].
  cbn [has_qualifier]. intros [Hq|Ht]%orb_prop.
  - apply bool_decide_eq_true in Hq as [rest Hq].
    apply qualifier_at_Some in Hq as (m & -> & Hm).
    apply elem_of_app. left. by apply qualifier_has_dot.
  - right. by apply IH.
Qed.

(** X18: a code point that is no quote, no dot and no letter of
    [public] (a blank, a comma, a line break) separates the text for
    the rewriter: once the lower-case word is present, what precedes and
    what follows the separator are rewritten independently of each
    other, and the separator stays. *)
Theorem separator_splits_rewrite a x b :
  outside_qualifier x = true ->
  str_contains (lit "public") (a ++ x :: b) = true ->
  remove_public_schema (PyStr (a ++ x :: b))
    = Ok (PyStr (strip a ++ x :: strip b)).
Proof.
  intros Hx Hc. by rewrite remove_public_schema_str, Hc, strip_across.
Qed.

Lemma separator_splits_rewrite_witness :
  remove_public_schema
    (PyStr (lit "SELECT * FROM public.a" ++ 10 :: lit "JOIN 'public'.b"))
  = Ok (PyStr (strip (lit "SELECT * FROM public.a")
               ++ 10 :: strip (lit "JOIN 'public'.b"))).
Proof.
  apply separator_splits_rewrite; vm_compute; reflexivity.
Defined.

(** X19: a text without a dot is returned unchanged. *)
Theorem no_dot_unchanged s :
  46 ∉ s -> remove_public_schema (PyStr s) = Ok (PyStr s).
Proof.
  intros Hdot. rewrite remove_public_schema_str.
  destruct (has_qualifier s) eqn:Hq.
  - by apply has_qualifier_dot in Hq.
  - rewrite strip_no_qualifier by done. by destruct (str_contains _ _).
Qed.

Lemma no_dot_unchanged_witness :
  remove_public_schema (PyStr (lit "SELECT 'public' AS public FROM republic"))
  = Ok (PyStr (lit "SELECT 'public' AS public FROM republic")).
Proof. apply no_dot_unchanged. compute_done. Defined.

End Locality.
